(** * sbatch.py: generation and launch of Slurm job scripts

    A shallow embedding of [sbatch.py] and the properties of its four
    parts: the unique-name resolver ([getLastDot], [createTempFileName]),
    the argument serializer ([build_args]), the two script builders
    ([build_sbatch], [build_srun]) and the launcher ([launch_exp]).

    Conventions of the embedding.
    - A Python [str] is the list of its code points ([list N]); [lit]
      turns an ASCII literal of the source into such a list.
    - A Python [bytes] is a [list byte].
    - Python integers are [Z]; a counter that only grows from 0 is [nat].
    - The functions that touch the outside world (file system, standard
      streams, child processes) run in the state-and-exception monad [M]
      over a [World]. *)

From Stdlib Require Import Strings.Ascii Strings.Byte.
From stdpp Require Import base numbers list strings pretty gmap.

Local Open Scope Z_scope.

(** ** Python strings *)

Definition lit (s : string) : list N :=
  Ascii.N_of_ascii <$> String.list_ascii_of_string s.

(** The character [.] and the line feed. *)
Definition dot : N := 46%N.
Definition nl : list N := [10%N].

(** [s[k:]] and [s[:k]] for an arbitrary integer [k]: a negative index
    counts from the end, and both are clipped to the string. *)
Definition clip_index (s : list N) (k : Z) : nat :=
  let l := Z.of_nat (length s) in
  Z.to_nat (if decide (k < 0) then Z.max 0 (l + k) else Z.min k l).

Definition slice_from (s : list N) (k : Z) : list N := drop (clip_index s k) s.
Definition slice_to (s : list N) (k : Z) : list N := take (clip_index s k) s.

(** [repr] of an integer: its decimal numeral, with a sign when negative. *)
Definition repr_int (z : Z) : list N := lit (pretty z).

(** [sub in s] on strings. *)
Fixpoint starts_with (sub s : list N) : bool :=
  match sub, s with
  | [], _ => true
  | a :: sub', b :: s' => bool_decide (a = b) && starts_with sub' s'
  | _ :: _, [] => false
  end.

Fixpoint str_in (sub s : list N) : bool :=
  starts_with sub s ||
  match s with
  | [] => false
  | _ :: s' => str_in sub s'
  end.

(** Unicode white space, as [str.isspace], [str.strip] and [str.split]
    see it. *)
Definition isspace (c : N) : bool :=
  ((0x09 <=? c) && (c <=? 0x0D) || (0x1C <=? c) && (c <=? 0x20)
   || (c =? 0x85) || (c =? 0xA0) || (c =? 0x1680)
   || (0x2000 <=? c) && (c <=? 0x200A)
   || (c =? 0x2028) || (c =? 0x2029) || (c =? 0x202F) || (c =? 0x205F)
   || (c =? 0x3000))%N.

Fixpoint lstrip (s : list N) : list N :=
  match s with
  | c :: s' => if isspace c then lstrip s' else s
  | [] => []
  end.

Definition rstrip (s : list N) : list N := reverse (lstrip (reverse s)).

(** [s.strip()] *)
Definition strip (s : list N) : list N := rstrip (lstrip s).

(** [s.split()]: the maximal runs of non-space characters, in order.
    [cur] is the run being read, reversed. *)
Fixpoint split_go (cur : list N) (s : list N) : list (list N) :=
  match s with
  | [] => if decide (cur = []) then [] else [reverse cur]
  | c :: s' =>
      if isspace c
      then (if decide (cur = []) then split_go [] s'
            else reverse cur :: split_go [] s')
      else split_go (c :: cur) s'
  end.

Definition split (s : list N) : list (list N) := split_go [] s.

(** ** Bytes and their strict UTF-8 decoding ([str(b, 'utf-8')]) *)

Definition is_cont (b : N) : bool := ((0x80 <=? b) && (b <=? 0xBF))%N.

Definition between (lo hi b : N) : bool := ((lo <=? b) && (b <=? hi))%N.

(** The well-formed byte sequences are those of the Unicode standard: no
    overlong form, no surrogate, nothing above U+10FFFF. *)
Fixpoint utf8_decode (bs : list N) : option (list N) :=
  match bs with
  | [] => Some []
  | b0 :: r0 =>
      if (b0 <=? 0x7F)%N then cons b0 <$> utf8_decode r0
      else if between 0xC2 0xDF b0 then
        match r0 with
        | b1 :: r1 =>
            if is_cont b1
            then cons ((b0 - 0xC0) * 64 + (b1 - 0x80))%N <$> utf8_decode r1
            else None
        | _ => None
        end
      else if between 0xE0 0xEF b0 then
        match r0 with
        | b1 :: b2 :: r2 =>
            if (if (b0 =? 0xE0)%N then between 0xA0 0xBF b1
                else if (b0 =? 0xED)%N then between 0x80 0x9F b1
                else is_cont b1) && is_cont b2
            then cons ((b0 - 0xE0) * 4096 + (b1 - 0x80) * 64 + (b2 - 0x80))%N
                   <$> utf8_decode r2
            else None
        | _ => None
        end
      else if between 0xF0 0xF4 b0 then
        match r0 with
        | b1 :: b2 :: b3 :: r3 =>
            if (if (b0 =? 0xF0)%N then between 0x90 0xBF b1
                else if (b0 =? 0xF4)%N then between 0x80 0x8F b1
                else is_cont b1) && is_cont b2 && is_cont b3
            then cons ((b0 - 0xF0) * 262144 + (b1 - 0x80) * 4096
                       + (b2 - 0x80) * 64 + (b3 - 0x80))%N
                   <$> utf8_decode r3
            else None
        | _ => None
        end
      else None
  end.

Definition decode (b : list byte) : option (list N) :=
  utf8_decode (Byte.to_N <$> b).

(** ** The outside world *)

Inductive stream := Stdout | Stderr.

(** How a standard stream of a child is set up: left to the caller's own
    stream, or connected to a pipe that [communicate] reads. *)
Inductive redirect := Inherit | PIPE.

(** What the program does that can be observed from outside, in order. *)
Inductive event :=
  | EvPrint (f : stream) (text : list N)
      (* [print(text, file=f)]: [text], then a line feed *)
  | EvSpawn (argv : list (list N)) (stdout stderr : redirect)
  | EvChildWrite (f : stream) (data : list byte)
      (* bytes a child wrote straight to an inherited stream *)
  | EvExit.
      (* the child has exited and [communicate] returns *)

Record World := {
  files : gmap (list N) (list N);
    (* the regular files, each path with its text *)
  probe_error : list N → bool;
    (* whether looking at the path fails with an error that
       [Path.is_file] lets through, such as a name that is too long or a
       directory that may not be searched *)
  writable : list N → bool;
    (* whether [open(path, 'w')] succeeds *)
  child : list (list N) → option (list byte * list byte);
    (* what a command does when run: [None] when it cannot be started,
       else what it writes to its standard output and standard error
       before it exits *)
  trace : list event
}.

Definition set_files (f : gmap (list N) (list N)) (w : World) : World :=
  {| files := f; probe_error := probe_error w; writable := writable w;
     child := child w; trace := trace w |}.

Definition emit (e : event) (w : World) : World :=
  {| files := files w; probe_error := probe_error w; writable := writable w;
     child := child w; trace := trace w ++ [e] |}.

(** ** Exceptions and the monad *)

Inductive exn :=
  | UnboundLocalError (name : string)
  | OSError
  | UnicodeDecodeError.

(** [OutOfFuel] is not a Python outcome: it is what a bounded loop of the
    embedding answers when its bound is too small.  [createTempFileName_total]
    shows that it never comes out. *)
Inductive result (A : Type) :=
  | Ok (a : A)
  | Raise (e : exn)
  | OutOfFuel.
Arguments Ok {A} a.
Arguments Raise {A} e.
Arguments OutOfFuel {A}.

Definition M (A : Type) : Type := World → result A * World.

Global Instance M_ret : MRet M := λ A a w, (Ok a, w).

Global Instance M_bind : MBind M := λ A B f m w,
  match m w with
  | (Ok a, w') => f a w'
  | (Raise e, w') => (Raise e, w')
  | (OutOfFuel, w') => (OutOfFuel, w')
  end.

Definition raise {A} (e : exn) : M A := λ w, (Raise e, w).

Definition out_of_fuel {A} : M A := λ w, (OutOfFuel, w).

(** Reading a local variable, which may not have been assigned yet. *)
Definition read_local {A} (name : string) (v : option A) : M A :=
  match v with
  | Some a => mret a
  | None => raise (UnboundLocalError name)
  end.

(** [Path(p).is_file()]: whether there is a regular file at [p].  A path
    that does not exist is no file; an error of another kind, met while
    looking, is raised. *)
Definition is_file (p : list N) : M bool := λ w,
  if probe_error w p then (Raise OSError, w)
  else (Ok (bool_decide (is_Some (files w !! p))), w).

(** [open(p, 'w')]: the file is created or emptied; the handle is its path.
    The files are told apart by their paths as written: what an [open]
    does to a file that has another path as well is not followed to that
    other path. *)
Definition open_w (p : list N) : M (list N) := λ w,
  if writable w p then (Ok p, set_files (<[p := []]> (files w)) w)
  else (Raise OSError, w).

(** [f.write(data)] *)
Definition write (f : list N) (data : list N) : M unit := λ w,
  (Ok (), set_files (<[f := default [] (files w !! f) ++ data]> (files w)) w).

(** [f.close()] *)
Definition close (f : list N) : M unit := mret ().

(** [print(text, file=f)] *)
Definition print (f : stream) (text : list N) : M unit := λ w,
  (Ok (), emit (EvPrint f text) w).

(** [for x in l: body(x)] *)
Fixpoint for_each {A} (l : list A) (body : A → M unit) : M unit :=
  match l with
  | [] => mret ()
  | x :: l' => body x;; for_each l' body
  end.

(** [subprocess.Popen(argv, stdout=.., stderr=..)] and [proc.communicate()]. *)
Record Process := {
  p_stdout : redirect; p_stderr : redirect;
  p_out : list byte; p_err : list byte
}.

Definition Popen (argv : list (list N)) (stdout stderr : redirect) : M Process :=
  λ w,
  match child w argv with
  | None => (Raise OSError, w)
  | Some (o, e) =>
      (Ok {| p_stdout := stdout; p_stderr := stderr; p_out := o; p_err := e |},
       emit (EvSpawn argv stdout stderr) w)
  end.

(** A piped stream is read to its end and handed back; for a stream that
    is not piped the answer is [None], and what the child writes lands on
    the caller's stream. *)
Definition drain (f : stream) (r : redirect) (data : list byte)
  : M (option (list byte)) := λ w,
  match r with
  | PIPE => (Ok (Some data), w)
  | Inherit => (Ok None, emit (EvChildWrite f data) w)
  end.

Definition child_exited : M unit := λ w, (Ok (), emit EvExit w).

Definition communicate (proc : Process)
  : M (option (list byte) * option (list byte)) :=
  output ← drain Stdout (p_stdout proc) (p_out proc);
  error ← drain Stderr (p_stderr proc) (p_err proc);
  child_exited;;
  mret (output, error).

(** [str(b, 'utf-8')] *)
Definition str_utf8 (b : list byte) : M (list N) :=
  match decode b with
  | Some text => mret text
  | None => raise UnicodeDecodeError
  end.

(** ** Utility *)

(** [for i in reversed(range(n))]: the indices [n-1], ..., [0]. *)
Fixpoint getLastDot_from (U_str : list N) (n : nat) : Z :=
  match n with
  | O => -1
  | S i =>
      if decide (U_str !! i = Some dot) then Z.of_nat i
      else getLastDot_from U_str i
  end.

Definition getLastDot (U_str : list N) : Z :=
  getLastDot_from U_str (length U_str).

(** The [while] loop of [createTempFileName], its condition tested at most
    [fuel] times.  It answers the final [temp_suffix]. *)
Fixpoint probe (fuel : nat) (ret_file_name temp_type : list N)
    (temp_number : nat) (temp_suffix : list N) : M (list N) :=
  match fuel with
  | O => out_of_fuel
  | S fuel' =>
      b ← is_file (ret_file_name ++ temp_suffix ++ temp_type);
      if b : bool then
        let temp_number := (temp_number + 1)%nat in
        let temp_suffix := lit "_" ++ repr_int (Z.of_nat temp_number) in
        probe fuel' ret_file_name temp_type temp_number temp_suffix
      else mret temp_suffix
  end.

(** Each round of the loop finds one more existing file, so one round
    more than there are files is enough. *)
Definition enough_fuel : M nat := λ w, (Ok (S (size (files w))), w).

Definition createTempFileName (temp_file_name : list N) : M (list N) :=
  let i_dot := getLastDot temp_file_name in
  let '(temp_type, ret_file_name) :=
    if decide (i_dot = -1) then (lit "", None)
    else
      let l := Z.of_nat (length temp_file_name) in
      (slice_from temp_file_name (i_dot - l),
       Some (slice_to temp_file_name i_dot)) in
  let temp_number := 0%nat in
  let temp_suffix := lit "" in
  fuel ← enough_fuel;
  ret_file_name ← read_local "ret_file_name" ret_file_name;
  temp_suffix ← probe fuel ret_file_name temp_type temp_number temp_suffix;
  let ret_file_name := ret_file_name ++ temp_suffix ++ temp_type in
  mret ret_file_name.

(** ** General definitions *)

(** The values of an arguments dictionary, as [build_args] tells them
    apart: a [bool], a [str], or an object of another type, of which only
    the [repr] matters.  Integers are kept apart from the other objects so
    that their [repr] is computed. *)
Inductive pyobj :=
  | PInt (z : Z)
  | PObj (repr : list N).

Inductive pyval :=
  | VBool (b : bool)
  | VStr (s : list N)
  | VOther (o : pyobj).

(** [repr(key)] for a [key] that is neither a [bool] nor a [str]. *)
Definition repr (key : pyobj) : list N :=
  match key with
  | PInt z => repr_int z
  | PObj r => r
  end.

(** A dictionary is read in insertion order: [argsDict.items()] is the
    list of its entries. *)
Definition build_args (argsDict : list (list N * pyval)) : list N :=
  fold_left (λ lstArgs '(name, key),
    match key with
    | VBool key =>
        if key then lstArgs ++ lit " --" ++ name else lstArgs
    | VStr key =>
        if decide (key ≠ lit "")
        then lstArgs ++ lit " --" ++ name ++ lit "=" ++ key
        else lstArgs
    | VOther key => lstArgs ++ lit " --" ++ name ++ lit "=" ++ repr key
    end) argsDict (lit "").

(** The dictionary [runOpt], with the keys the program reads. *)
Record RunOptions := {
  interactive : bool;
  env_name : list N;
  command : list N;
  script : list N;
  temp_file : list N
}.

(** [runOpt['temp_file'] = p].  The dictionary is changed in place: the
    builders hand the changed dictionary back to their caller. *)
Definition set_temp_file (p : list N) (runOpt : RunOptions) : RunOptions :=
  {| interactive := interactive runOpt; env_name := env_name runOpt;
     command := command runOpt; script := script runOpt; temp_file := p |}.

Definition build_sbatch (runOpt : RunOptions) (sbatchOpt : list (list N))
    (argsDict : list (list N * pyval)) : M RunOptions :=
  p ← createTempFileName (temp_file runOpt);
  let runOpt := set_temp_file p runOpt in
  f_sbatch ← open_w (temp_file runOpt);
  (* Slurm options *)
  write f_sbatch (lit "#!/bin/bash" ++ nl ++ nl);;
  for_each sbatchOpt (λ opt, write f_sbatch (lit "#SBATCH " ++ opt ++ nl));;
  write f_sbatch nl;;
  (* Bash part *)
  write f_sbatch (lit "source activate " ++ env_name runOpt ++ nl);;
  let str_args := build_args argsDict in
  let str_args :=
    if str_in (lit "ipython") (command runOpt) then lit " --" ++ str_args
    else str_args in
  write f_sbatch (command runOpt ++ lit " " ++ script runOpt ++ str_args ++ nl);;
  write f_sbatch (lit "source deactivate " ++ env_name runOpt ++ nl);;
  close f_sbatch;;
  mret runOpt.

Definition build_srun (runOpt : RunOptions) (sbatchOpt : list (list N))
    (argsDict : list (list N * pyval)) : M (list N * RunOptions) :=
  let command_srun := lit "srun" in
  let command_srun :=
    fold_left (λ command_srun opt, command_srun ++ lit " " ++ opt)
      sbatchOpt command_srun in
  let command_srun := command_srun ++ lit " --pty bash" in
  p ← createTempFileName (temp_file runOpt);
  let runOpt := set_temp_file p runOpt in
  f_sbatch ← open_w (temp_file runOpt);
  write f_sbatch (lit "#!/bin/bash" ++ nl ++ nl);;
  write f_sbatch (lit "source activate " ++ env_name runOpt ++ nl);;
  let str_args := build_args argsDict in
  let str_args :=
    if str_in (lit "ipython") (command runOpt) then lit " --" ++ str_args
    else str_args in
  write f_sbatch (command runOpt ++ lit " " ++ script runOpt ++ str_args ++ nl);;
  write f_sbatch (lit "source deactivate " ++ env_name runOpt ++ nl);;
  close f_sbatch;;
  mret (command_srun, runOpt).

(** [if not x is None: print(str(x, 'utf-8').strip(), file=f)] *)
Definition relay (f : stream) (x : option (list byte)) : M unit :=
  match x with
  | Some b => text ← str_utf8 b; print f (strip text)
  | None => mret ()
  end.

Definition launch_exp (runOpt : RunOptions) (sbatchOpt : list (list N))
    (argsDict : list (list N * pyval)) : M RunOptions :=
  if interactive runOpt then
    '(command_srun, runOpt) ← build_srun runOpt sbatchOpt argsDict;
    print Stdout (lit "Interactive job to launch: " ++ temp_file runOpt ++ nl);;
    proc ← Popen (split command_srun) PIPE Inherit;
    '(output, error) ← communicate proc;
    mret runOpt
  else
    runOpt ← build_sbatch runOpt sbatchOpt argsDict;
    let bashCMD := lit "sbatch " ++ temp_file runOpt in
    proc ← Popen (split bashCMD) PIPE Inherit;
    '(output, error) ← communicate proc;
    relay Stdout output;;
    relay Stderr error;;
    mret runOpt.

(** * The vocabulary of the statements *)

(** ** Candidates of the resolver *)

(** The suffix after [n] rounds of the loop, and the path probed then. *)
Definition suffix_of (n : nat) : list N :=
  match n with
  | O => lit ""
  | S _ => lit "_" ++ repr_int (Z.of_nat n)
  end.

Definition candidate (stem ext : list N) (n : nat) : list N :=
  stem ++ suffix_of n ++ ext.

(** ** The text of the scripts, part by part *)

Definition shebang : list N := lit "#!/bin/bash" ++ nl ++ nl.

Definition directive_lines (sbatchOpt : list (list N)) : list N :=
  concat ((λ opt, lit "#SBATCH " ++ opt ++ nl) <$> sbatchOpt).

Definition ipython_prefix (command : list N) : list N :=
  if str_in (lit "ipython") command then lit " --" else lit "".

Definition invocation_line (runOpt : RunOptions)
    (argsDict : list (list N * pyval)) : list N :=
  command runOpt ++ lit " " ++ script runOpt
  ++ ipython_prefix (command runOpt) ++ build_args argsDict ++ nl.

Definition bash_part (runOpt : RunOptions)
    (argsDict : list (list N * pyval)) : list N :=
  (lit "source activate " ++ env_name runOpt ++ nl)
  ++ invocation_line runOpt argsDict
  ++ (lit "source deactivate " ++ env_name runOpt ++ nl).

Definition sbatch_script (runOpt : RunOptions) (sbatchOpt : list (list N))
    (argsDict : list (list N * pyval)) : list N :=
  shebang ++ directive_lines sbatchOpt ++ nl ++ bash_part runOpt argsDict.

Definition srun_script (runOpt : RunOptions)
    (argsDict : list (list N * pyval)) : list N :=
  shebang ++ bash_part runOpt argsDict.

(** The text as lines: what stands between the line feeds. *)
Fixpoint lines_go (cur s : list N) : list (list N) :=
  match s with
  | [] => [reverse cur]
  | c :: s' =>
      if (c =? 10)%N then reverse cur :: lines_go [] s'
      else lines_go (c :: cur) s'
  end.

Definition lines (s : list N) : list (list N) := lines_go [] s.

(** ** The serializer, in the words of the specification *)

(** The fragment of one entry: a true boolean gives the bare flag, a
    string that is not empty gives [--name=value], any other value gives
    [--name=] and its printable form, all with one space in front; a false
    boolean and the empty string give nothing. *)
Definition fragment (entry : list N * pyval) : list N :=
  let '(name, key) := entry in
  match key with
  | VBool true => lit " --" ++ name
  | VBool false => lit ""
  | VStr [] => lit ""
  | VStr value => lit " --" ++ name ++ lit "=" ++ value
  | VOther (PInt z) => lit " --" ++ name ++ lit "=" ++ lit (pretty z)
  | VOther (PObj printable) => lit " --" ++ name ++ lit "=" ++ printable
  end.

(** ** Traces *)

Global Instance stream_eq_dec : EqDecision stream.
Proof. solve_decision. Defined.

(** What was printed to a stream, and which commands were started with
    which set-up of their standard output, in order. *)
Definition printed (f : stream) (tr : list event) : list (list N) :=
  omap (λ ev, match ev with
              | EvPrint g text => if decide (f = g) then Some text else None
              | _ => None
              end) tr.

Definition spawned_stdout (tr : list event)
  : list (list (list N) * redirect) :=
  omap (λ ev, match ev with
              | EvSpawn argv out _ => Some (argv, out)
              | _ => None
              end) tr.

(** ** Sample inputs *)

(** A world with empty files at the given paths, where every path can be
    opened for writing and every command, once run, writes [out] and [err]
    and exits. *)
Definition sample_world (paths : list (list N)) (out err : list byte) : World :=
  {| files := list_to_map ((λ p, (p, lit "")) <$> paths);
     probe_error := λ _, false;
     writable := λ _, true;
     child := λ _, Some (out, err);
     trace := [] |}.

(** The run options of the scenarios: environment [env1], command
    [python], script [train.py], script file [job.sh]. *)
Definition sample_runOpt (interactive : bool) : RunOptions :=
  {| interactive := interactive; env_name := lit "env1";
     command := lit "python"; script := lit "train.py";
     temp_file := lit "job.sh" |}.

(** A world without files where no path can be opened for writing. *)
Definition readonly_world : World :=
  {| files := ∅; probe_error := λ _, false; writable := λ _, false;
     child := λ _, None; trace := [] |}.

(** A world with empty files at the given paths where no command can be
    started. *)
Definition offline_world (paths : list (list N)) : World :=
  {| files := list_to_map ((λ p, (p, lit "")) <$> paths);
     probe_error := λ _, false;
     writable := λ _, true;
     child := λ _, None;
     trace := [] |}.

(** ** Further vocabulary *)

(** An entry for which the serializer adds nothing. *)
Definition silent (entry : list N * pyval) : Prop :=
  entry.2 = VBool false ∨ entry.2 = VStr (lit "").

(** An event that is no start of a command, or is one with the standard
    output piped and the standard error inherited. *)
Definition piped_stdout_only (ev : event) : Prop :=
  match ev with
  | EvSpawn _ out err => out = PIPE ∧ err = Inherit
  | _ => True
  end.

(** A world where every path has a name too long to be looked at. *)
Definition unprobeable_world : World :=
  {| files := ∅; probe_error := λ _, true; writable := λ _, false;
     child := λ _, None; trace := [] |}.

(** * Properties *)

(** ** The monad *)

Lemma bind_unfold {A B} (m : M A) (f : A → M B) w :
  (m ≫= f) w =
  match m w with
  | (Ok a, w') => f a w'
  | (Raise e, w') => (Raise e, w')
  | (OutOfFuel, w') => (OutOfFuel, w')
  end.
Proof. reflexivity. Qed.

Lemma bind_ok {A B} (m : M A) (f : A → M B) w a w' :
  m w = (Ok a, w') → (m ≫= f) w = f a w'.
Proof. intros H. rewrite bind_unfold, H. reflexivity. Qed.

Lemma bind_raise {A B} (m : M A) (f : A → M B) w e w' :
  m w = (Raise e, w') → (m ≫= f) w = (Raise e, w').
Proof. intros H. rewrite bind_unfold, H. reflexivity. Qed.

(** ** Literals *)

Lemma N_of_ascii_inj : Inj (=) (=) Ascii.N_of_ascii.
Proof.
  intros a b Hab.
  rewrite <- (Ascii.ascii_N_embedding a), <- (Ascii.ascii_N_embedding b).
  by rewrite Hab.
Qed.

Lemma lit_inj : Inj (=) (=) lit.
Proof.
  intros s1 s2 H. unfold lit in H.
  apply (list_fmap_eq_inj _ N_of_ascii_inj) in H.
  rewrite <- (String.string_of_list_ascii_of_string s1),
    <- (String.string_of_list_ascii_of_string s2). by rewrite H.
Qed.

Lemma repr_int_inj : Inj (=) (=) repr_int.
Proof. intros x y H. by apply (inj pretty), lit_inj. Qed.

(** ** [getLastDot] *)

Lemma getLastDot_from_range s n :
  getLastDot_from s n = -1 ∨ 0 ≤ getLastDot_from s n < Z.of_nat n.
Proof.
  induction n as [|n IH]; simpl; [by left|].
  case_decide; [right; lia|]. destruct IH; [by left|right; lia].
Qed.

Lemma getLastDot_from_none s n :
  getLastDot_from s n = -1 ↔ ∀ i, (i < n)%nat → s !! i ≠ Some dot.
Proof.
  induction n as [|n IH]; simpl.
  - split; [intros _ i; lia|done].
  - case_decide as Hd.
    + split; [lia|]. intros H. by destruct (H n); [lia|].
    + rewrite IH. split.
      * intros H i Hi. destruct (decide (i = n)) as [->|]; [done|].
        apply H. lia.
      * intros H i Hi. apply H. lia.
Qed.

Lemma getLastDot_from_some s n i :
  getLastDot_from s n = Z.of_nat i →
  (i < n)%nat ∧ s !! i = Some dot ∧
  ∀ j, (i < j < n)%nat → s !! j ≠ Some dot.
Proof.
  induction n as [|n IH]; simpl; [lia|].
  case_decide as Hd.
  - intros Hi. assert (i = n) as -> by lia. split_and!; [lia|done|lia].
  - intros Hi. destruct (IH Hi) as (? & ? & Hj). split_and!; [lia|done|].
    intros j Hjn. destruct (decide (j = n)) as [->|]; [done|]. apply Hj. lia.
Qed.

(** A string without any dot has no last dot. *)
Lemma getLastDot_no_dot s : dot ∉ s → getLastDot s = -1.
Proof.
  intros H. apply getLastDot_from_none. intros i _ Hi.
  apply H. by eapply list_elem_of_lookup_2.
Qed.

(** The last dot of [s ++ "." ++ t], where [t] has no dot, is the one
    shown. *)
Lemma getLastDot_app s t :
  dot ∉ t → getLastDot (s ++ dot :: t) = Z.of_nat (length s).
Proof.
  intros Ht. unfold getLastDot.
  destruct (getLastDot_from_range (s ++ dot :: t) (length (s ++ dot :: t)))
    as [H|H].
  - rewrite getLastDot_from_none in H. destruct (H (length s)).
    + rewrite length_app. simpl. lia.
    + by rewrite list_lookup_middle.
  - destruct (Z_of_nat_complete (getLastDot_from (s ++ dot :: t)
                (length (s ++ dot :: t)))) as [i Hi]; [lia|].
    rewrite Hi. f_equal.
    destruct (getLastDot_from_some _ _ _ Hi) as (Hlt & Hdot & Hlast).
    destruct (decide (i = length s)) as [|Hne]; [done|exfalso].
    destruct (decide (i < length s)%nat) as [Hl|Hl].
    + destruct (Hlast (length s)).
      * rewrite length_app; simpl; lia.
      * by rewrite list_lookup_middle.
    + apply Ht. rewrite lookup_app_r in Hdot by lia.
      destruct (i - length s)%nat as [|k] eqn:Hk; [lia|]. simpl in Hdot.
      by eapply list_elem_of_lookup_2.
Qed.

(** Where the last dot is, the two slices of [createTempFileName] cut the
    string in two. *)
Lemma slices_at_last_dot s i :
  getLastDot s = Z.of_nat i →
  slice_to s (Z.of_nat i) = take i s ∧
  slice_from s (Z.of_nat i - Z.of_nat (length s)) = drop i s ∧
  (i < length s)%nat.
Proof.
  intros H. destruct (getLastDot_from_some _ _ _ H) as (Hlt & _ & _).
  unfold slice_to, slice_from, clip_index. split_and!; [| |done].
  - case_decide; [lia|]. f_equal. lia.
  - case_decide; [|lia]. f_equal. lia.
Qed.

(** ** [createTempFileName] *)

Lemma suffix_of_inj : Inj (=) (=) suffix_of.
Proof.
  intros [|n] [|m] H; simpl in H; try done.
  apply (inj (app (lit "_"))), repr_int_inj in H. lia.
Qed.

Section probe.
Variables (stem ext : list N) (w : World).

Lemma candidate_inj : Inj (=) (=) (candidate stem ext).
Proof.
  intros n m H. unfold candidate in H.
  apply (inj (app stem)) in H.
  by apply app_inv_tail, suffix_of_inj in H.
Qed.

(** The loop stops at the first candidate that is no file, or that
    cannot be looked at: then the error is raised.  [X] holds the files
    that the rounds still to come can meet: each round that goes on takes
    one out, so [fuel] above the size of [X] is enough. *)
Lemma probe_spec (fuel n : nat) (X : gset (list N)) :
  (∀ m, (n ≤ m)%nat → is_Some (files w !! candidate stem ext m) →
        candidate stem ext m ∈ X) →
  (size X < fuel)%nat →
  ∃ k, (n ≤ k)%nat ∧
    (∀ j, (n ≤ j < k)%nat →
          probe_error w (candidate stem ext j) = false ∧
          is_Some (files w !! candidate stem ext j)) ∧
    ((probe fuel stem ext n (suffix_of n) w = (Ok (suffix_of k), w) ∧
      probe_error w (candidate stem ext k) = false ∧
      files w !! candidate stem ext k = None) ∨
     (probe fuel stem ext n (suffix_of n) w = (Raise OSError, w) ∧
      probe_error w (candidate stem ext k) = true)).
Proof.
  revert n X. induction fuel as [|fuel' IH]; intros n X HX Hsize; [lia|].
  cbn [probe]. rewrite bind_unfold. unfold is_file.
  fold (candidate stem ext n).
  destruct (probe_error w (candidate stem ext n)) eqn:Herr.
  { exists n. split_and!; [lia|intros j; lia|by right]. }
  destruct (decide (is_Some (files w !! candidate stem ext n))) as [Hn|Hn].
  - rewrite bool_decide_eq_true_2 by done.
    replace (n + 1)%nat with (S n) by lia.
    change (lit "_" ++ repr_int (Z.of_nat (S n))) with (suffix_of (S n)).
    destruct (IH (S n) (X ∖ {[candidate stem ext n]}))
      as (k & Hk & Hbusy & Hend).
    + intros m Hm Hfile. apply elem_of_difference.
      split; [apply HX; [lia|done]|].
      rewrite elem_of_singleton. intros Heq%candidate_inj. lia.
    + assert (candidate stem ext n ∈ X) as Hin by (apply HX; [lia|done]).
      apply subset_difference_elem_of, subset_size in Hin. lia.
    + exists k. split_and!; [lia| |done].
      intros j Hj. destruct (decide (j = n)) as [->|]; [done|].
      apply Hbusy. lia.
  - rewrite bool_decide_eq_false_2 by done.
    exists n. split_and!; [lia|intros j; lia|].
    left. split_and!; [done|done|]. by apply eq_None_not_Some.
Qed.
End probe.

(** On a path with a dot the resolver looks at the path itself and then
    at the path with [_1], [_2], ... put in before its last dot.  It
    answers the first candidate that is no file; when a candidate cannot
    be looked at, the error is raised.  Nothing is written. *)
Lemma createTempFileName_dotted (p : list N) (i : nat) (w : World) :
  getLastDot p = Z.of_nat i →
  ∃ k,
    (∀ j, (j < k)%nat →
          probe_error w (candidate (take i p) (drop i p) j) = false ∧
          is_Some (files w !! candidate (take i p) (drop i p) j)) ∧
    ((createTempFileName p w = (Ok (candidate (take i p) (drop i p) k), w) ∧
      probe_error w (candidate (take i p) (drop i p) k) = false ∧
      files w !! candidate (take i p) (drop i p) k = None) ∨
     (createTempFileName p w = (Raise OSError, w) ∧
      probe_error w (candidate (take i p) (drop i p) k) = true)).
Proof.
  intros Hi. destruct (slices_at_last_dot _ _ Hi) as (Hto & Hfrom & _).
  unfold createTempFileName. rewrite Hi.
  case_decide as Hneg; [lia|]. rewrite Hto, Hfrom.
  destruct (probe_spec (take i p) (drop i p) w (S (size (files w))) 0
              (dom (files w))) as (k & _ & Hbusy & Hend).
  { intros m _ Hm. by apply elem_of_dom. }
  { rewrite size_dom. lia. }
  exists k. split; [intros j Hj; apply Hbusy; lia|].
  rewrite bind_unfold. unfold enough_fuel. cbn [read_local].
  rewrite !bind_unfold. cbn [mret M_ret].
  change (lit "") with (suffix_of 0).
  destruct Hend as [(Hrun & Herr & Hfree)|(Hrun & Herr)].
  - left. by rewrite (bind_ok _ _ _ _ _ Hrun).
  - right. by rewrite (bind_raise _ _ _ _ _ Hrun).
Qed.

(** On a path without a dot, [ret_file_name] is read before it was ever
    assigned. *)
Lemma createTempFileName_dotless (p : list N) (w : World) :
  getLastDot p = -1 →
  createTempFileName p w = (Raise (UnboundLocalError "ret_file_name"), w).
Proof.
  intros H. unfold createTempFileName. rewrite H.
  by case_decide.
Qed.

(** The bound on the loop is never met: the resolver returns a path or
    raises. *)
Lemma createTempFileName_total (p : list N) (w : World) :
  (createTempFileName p w).1 ≠ OutOfFuel ∧ (createTempFileName p w).2 = w.
Proof.
  destruct (getLastDot_from_range p (length p)) as [H|H].
  - by rewrite createTempFileName_dotless.
  - destruct (Z_of_nat_complete (getLastDot p)) as [i Hi];
      [unfold getLastDot; lia|].
    destruct (createTempFileName_dotted p i w Hi)
      as (k & _ & [(-> & _)|(-> & _)]); done.
Qed.

(** A path with a dot that can be looked at and names no file is returned
    as it is. *)
Lemma createTempFileName_free (p : list N) (w : World) :
  getLastDot p ≠ -1 → probe_error w p = false → files w !! p = None →
  createTempFileName p w = (Ok p, w).
Proof.
  intros Hdot Herr Hfree.
  destruct (getLastDot_from_range p (length p)) as [H|H]; [done|].
  destruct (Z_of_nat_complete (getLastDot p)) as [i Hi];
    [unfold getLastDot; lia|].
  destruct (createTempFileName_dotted p i w Hi) as (k & Hbusy & Hend).
  destruct k as [|k].
  - unfold candidate in Hend. simpl in Hend. rewrite take_drop in Hend.
    destruct Hend as [(Hrun & _)|(_ & Htrue)]; [done|congruence].
  - destruct (Hbusy 0%nat) as [_ [x Hx]]; [lia|].
    unfold candidate in Hx. simpl in Hx. rewrite take_drop in Hx. congruence.
Qed.

(** ** The scripts *)

(** Writing to a file that holds [c] leaves it holding [c ++ d]. *)
Lemma write_append f c d fs w :
  write f d (set_files (<[f := c]> fs) w)
  = (Ok (), set_files (<[f := c ++ d]> fs) w).
Proof.
  unfold write, set_files. simpl.
  by rewrite lookup_insert_eq, insert_insert_eq.
Qed.

Lemma for_each_write f (g : list N → list N) opts c fs w :
  for_each opts (λ opt, write f (g opt)) (set_files (<[f := c]> fs) w)
  = (Ok (), set_files (<[f := c ++ concat (g <$> opts)]> fs) w).
Proof.
  revert c. induction opts as [|opt opts IH]; intros c; simpl.
  - by rewrite app_nil_r.
  - rewrite bind_unfold, write_append, IH. by rewrite <- app_assoc.
Qed.

Lemma str_args_prefix cmd (args : list N) :
  (if str_in (lit "ipython") cmd then lit " --" ++ args else args)
  = ipython_prefix cmd ++ args.
Proof. unfold ipython_prefix. by destruct (str_in _ _). Qed.

(** One [write], or one loop of them, on the file just opened. *)
Ltac step_write :=
  rewrite bind_unfold; (rewrite write_append || rewrite for_each_write).

(** Two outcomes that differ in the text of one file at most. *)
Ltac same_text :=
  lazymatch goal with
  | |- _ = (_, set_files (<[_ := ?y]> _) _) =>
      unfold mret, M_ret;
      lazymatch goal with
      | |- (_, set_files (<[_ := ?x]> _) _) = _ =>
          replace x with y; [reflexivity|symmetry]
      end
  end.

(** What the batch builder does once the name is resolved. *)
Lemma build_sbatch_run runOpt sbatchOpt argsDict (w : World) (p : list N) :
  createTempFileName (temp_file runOpt) w = (Ok p, w) →
  build_sbatch runOpt sbatchOpt argsDict w =
    if writable w p
    then (Ok (set_temp_file p runOpt),
          set_files (<[p := sbatch_script runOpt sbatchOpt argsDict]> (files w)) w)
    else (Raise OSError, w).
Proof.
  intros Hp. unfold build_sbatch. rewrite (bind_ok _ _ _ _ _ Hp).
  cbn [temp_file set_temp_file env_name command script].
  rewrite bind_unfold. unfold open_w.
  destruct (writable w p); [|done].
  do 6 step_write. unfold close. rewrite bind_unfold. same_text.
  rewrite str_args_prefix.
  unfold sbatch_script, bash_part, invocation_line, shebang, directive_lines.
  rewrite app_nil_l, <- !app_assoc. reflexivity.
Qed.

(** The same for the interactive builder. *)
Lemma build_srun_run runOpt sbatchOpt argsDict (w : World) (p : list N) :
  createTempFileName (temp_file runOpt) w = (Ok p, w) →
  build_srun runOpt sbatchOpt argsDict w =
    if writable w p
    then (Ok (fold_left (λ c opt, c ++ lit " " ++ opt) sbatchOpt (lit "srun")
                ++ lit " --pty bash",
              set_temp_file p runOpt),
          set_files (<[p := srun_script runOpt argsDict]> (files w)) w)
    else (Raise OSError, w).
Proof.
  intros Hp. unfold build_srun. rewrite (bind_ok _ _ _ _ _ Hp).
  cbn [temp_file set_temp_file env_name command script].
  rewrite bind_unfold. unfold open_w.
  destruct (writable w p); [|done].
  do 4 step_write. unfold close. rewrite bind_unfold. same_text.
  rewrite str_args_prefix.
  unfold srun_script, bash_part, invocation_line, shebang.
  rewrite app_nil_l, <- !app_assoc. reflexivity.
Qed.

(** The launch command of the interactive builder, written out. *)
Lemma srun_command_fold (sbatchOpt : list (list N)) (c : list N) :
  fold_left (λ c opt, c ++ lit " " ++ opt) sbatchOpt c
  = c ++ concat ((λ opt, lit " " ++ opt) <$> sbatchOpt).
Proof.
  revert c. induction sbatchOpt as [|opt l IH]; intros c; simpl.
  - by rewrite app_nil_r.
  - rewrite IH. by rewrite <- !app_assoc.
Qed.

(** ** [build_args] *)

(** The serializer adds the fragments one after the other. *)
Lemma build_args_concat (argsDict : list (list N * pyval)) :
  build_args argsDict = concat (fragment <$> argsDict).
Proof.
  unfold build_args.
  lazymatch goal with
  | |- fold_left ?f _ _ = _ =>
      assert (∀ acc, fold_left f argsDict acc
                     = acc ++ concat (fragment <$> argsDict)) as Hacc
  end.
  { induction argsDict as [|[name key] d IH]; intros acc; simpl.
    - by rewrite app_nil_r.
    - rewrite IH. destruct key as [[]|[|c s]|[z|r]]; cbn [fragment repr];
        try case_decide; try done; by rewrite <- !app_assoc. }
  by rewrite Hacc.
Qed.

Lemma build_args_app (d1 d2 : list (list N * pyval)) :
  build_args (d1 ++ d2) = build_args d1 ++ build_args d2.
Proof. by rewrite !build_args_concat, fmap_app, concat_app. Qed.

(** ** Substrings *)

Lemma starts_with_spec (sub s : list N) :
  starts_with sub s = true ↔ ∃ b, s = sub ++ b.
Proof.
  revert s. induction sub as [|a sub IH]; intros s; simpl.
  - split; [intros _; by exists s|done].
  - destruct s as [|c s].
    + split; [done|]. by intros [b Hb].
    + rewrite andb_true_iff, bool_decide_eq_true, IH. split.
      * intros [-> [b ->]]. by exists b.
      * intros [b Hb]. injection Hb as -> ->. split; [done|by exists b].
Qed.

(** [str_in sub s] says that [sub] occurs in [s]. *)
Lemma str_in_spec (sub s : list N) :
  str_in sub s = true ↔ ∃ a b, s = a ++ sub ++ b.
Proof.
  induction s as [|c s IH]; simpl.
  - rewrite orb_false_r, starts_with_spec. split.
    + intros [b Hb]. by exists [], b.
    + intros (a & b & Hab). destruct a; [by exists b|done].
  - rewrite orb_true_iff, starts_with_spec, IH. split.
    + intros [[b Hb]|(a & b & ->)]; [by exists [], b|by exists (c :: a), b].
    + intros (a & b & Hab). destruct a as [|c' a]; [left; by exists b|].
      injection Hab as -> ->. right. by exists a, b.
Qed.

(** ** The launcher *)

(** Starting a command the way the launcher does, and waiting for it. *)
Lemma popen_communicate {A} (argv : list (list N)) (k : _ → M A) (w : World)
    (o e : list byte) :
  child w argv = Some (o, e) →
  (proc ← Popen argv PIPE Inherit; r ← communicate proc; k r) w
  = k (Some o, None)
      (emit EvExit (emit (EvChildWrite Stderr e)
         (emit (EvSpawn argv PIPE Inherit) w))).
Proof.
  intros Hc. rewrite bind_unfold. unfold Popen. rewrite Hc.
  unfold communicate. by rewrite !bind_unfold.
Qed.

(** A command that cannot be started: the exception of [Popen] is that of
    the launcher. *)
Lemma popen_fails {A} (argv : list (list N)) (k : _ → M A) (w : World) :
  child w argv = None →
  (proc ← Popen argv PIPE Inherit; k proc) w = (Raise OSError, w).
Proof. intros Hc. rewrite bind_unfold. unfold Popen. by rewrite Hc. Qed.

(** The interactive run, in full. *)
Lemma launch_exp_interactive_run (runOpt : RunOptions)
    (sbatchOpt : list (list N)) (argsDict : list (list N * pyval))
    (w : World) (p : list N) (o e : list byte) :
  interactive runOpt = true →
  createTempFileName (temp_file runOpt) w = (Ok p, w) →
  writable w p = true →
  child w (split (lit "srun" ++ concat ((λ opt, lit " " ++ opt) <$> sbatchOpt)
                  ++ lit " --pty bash")) = Some (o, e) →
  launch_exp runOpt sbatchOpt argsDict w
  = (Ok (set_temp_file p runOpt),
     emit EvExit (emit (EvChildWrite Stderr e)
       (emit (EvSpawn
                (split (lit "srun"
                        ++ concat ((λ opt, lit " " ++ opt) <$> sbatchOpt)
                        ++ lit " --pty bash")) PIPE Inherit)
          (emit (EvPrint Stdout
                   (lit "Interactive job to launch: " ++ p ++ nl))
             (set_files (<[p := srun_script runOpt argsDict]> (files w)) w))))).
Proof.
  intros Hi Hp Hw Hc. unfold launch_exp. rewrite Hi.
  rewrite bind_unfold, (build_srun_run runOpt _ _ w p Hp), Hw.
  rewrite srun_command_fold, <- app_assoc.
  rewrite bind_unfold. unfold print at 1. cbn [temp_file set_temp_file].
  by rewrite (popen_communicate _ _ _ o e).
Qed.

(** The batch run, in full, when the output of the child is UTF-8. *)
Lemma launch_exp_batch_run (runOpt : RunOptions)
    (sbatchOpt : list (list N)) (argsDict : list (list N * pyval))
    (w : World) (p : list N) (o e : list byte) (text : list N) :
  interactive runOpt = false →
  createTempFileName (temp_file runOpt) w = (Ok p, w) →
  writable w p = true →
  child w (split (lit "sbatch " ++ p)) = Some (o, e) →
  decode o = Some text →
  launch_exp runOpt sbatchOpt argsDict w
  = (Ok (set_temp_file p runOpt),
     emit (EvPrint Stdout (strip text))
       (emit EvExit (emit (EvChildWrite Stderr e)
          (emit (EvSpawn (split (lit "sbatch " ++ p)) PIPE Inherit)
             (set_files (<[p := sbatch_script runOpt sbatchOpt argsDict]>
                           (files w)) w))))).
Proof.
  intros Hi Hp Hw Hc Hd. unfold launch_exp. rewrite Hi.
  rewrite bind_unfold, (build_sbatch_run runOpt _ _ w p Hp), Hw.
  cbn [temp_file set_temp_file].
  rewrite (popen_communicate _ _ _ o e) by done.
  unfold relay, str_utf8. rewrite Hd. by rewrite !bind_unfold.
Qed.

(** * The claims *)

(** ** The unique-name resolver *)

(** C2 (defect of the code).  The claim: the resolver returns, without an
    error, on every path, also one without a dot.  The code: on the path
    [job], in any world, it raises [UnboundLocalError], because
    [ret_file_name] is assigned only on the branch that found a dot. *)
Theorem createTempFileName_dotless_job (w : World) :
  createTempFileName (lit "job") w
  = (Raise (UnboundLocalError "ret_file_name"), w).
Proof. by apply createTempFileName_dotless. Qed.

(** C3 (defect of the code).  The claim: a path at which there is no file
    is returned unchanged.  The code: with no file at all, the path [job]
    is not returned; the call raises [UnboundLocalError]. *)
Theorem createTempFileName_free_job :
  let w := sample_world [] [] [] in
  files w !! lit "job" = None ∧
  createTempFileName (lit "job") w ≠ (Ok (lit "job"), w) ∧
  createTempFileName (lit "job") w
  = (Raise (UnboundLocalError "ret_file_name"), w).
Proof.
  intros w. split; [done|].
  rewrite (createTempFileName_dotless (lit "job") w) by done. done.
Qed.

(** C4 (defect of the code).  The claim: when [p] and its [_1] variant
    exist, the [_2] variant is returned.  The code: with files [job] and
    [job_1], the path [job] does not give [job_2]; the call raises
    [UnboundLocalError]. *)
Theorem createTempFileName_collision_job :
  let w := sample_world [lit "job"; lit "job_1"] [] [] in
  is_Some (files w !! lit "job") ∧ is_Some (files w !! lit "job_1") ∧
  files w !! lit "job_2" = None ∧
  createTempFileName (lit "job") w ≠ (Ok (lit "job_2"), w) ∧
  createTempFileName (lit "job") w
  = (Raise (UnboundLocalError "ret_file_name"), w).
Proof.
  intros w. split_and!; [by eexists|by eexists|done| |].
  - rewrite (createTempFileName_dotless (lit "job") w) by done. done.
  - by apply createTempFileName_dotless.
Qed.

(** The same collision on a path with a dot: [job_2.sh] is returned. *)
Example createTempFileName_collision_job_sh :
  let w := sample_world [lit "job.sh"; lit "job_1.sh"] [] [] in
  createTempFileName (lit "job.sh") w = (Ok (lit "job_2.sh"), w).
Proof. vm_compute. reflexivity. Qed.

(** C10, as stated, fails: with a file at [a.], the path [a.] resolves to
    [a_1.], the suffix before the dot, and not to [a._1]. *)
Lemma createTempFileName_trailing_dot_before :
  let w := sample_world [lit "a."] [] [] in
  createTempFileName (lit "a.") w = (Ok (lit "a_1."), w) ∧
  createTempFileName (lit "a.") w ≠ (Ok (lit "a._1"), w).
Proof. vm_compute. split; [reflexivity|discriminate]. Qed.

(** C10, amended: on a path that ends in a dot, the extension is that dot
    alone, so a collision suffix is put in just before the final dot and
    the returned path still ends in it.  The suffix is that of the first
    candidate that is no file; the candidates before it are files.  When a
    candidate cannot be looked at, no path is returned: the error of the
    probe is raised. *)
Theorem createTempFileName_trailing_dot (s : list N) (w : World) :
  ∃ k,
    (∀ j, (j < k)%nat →
          probe_error w (s ++ suffix_of j ++ [dot]) = false ∧
          is_Some (files w !! (s ++ suffix_of j ++ [dot]))) ∧
    ((createTempFileName (s ++ [dot]) w
      = (Ok (s ++ suffix_of k ++ [dot]), w) ∧
      probe_error w (s ++ suffix_of k ++ [dot]) = false ∧
      files w !! (s ++ suffix_of k ++ [dot]) = None) ∨
     (createTempFileName (s ++ [dot]) w = (Raise OSError, w) ∧
      probe_error w (s ++ suffix_of k ++ [dot]) = true)).
Proof.
  destruct (createTempFileName_dotted (s ++ [dot]) (length s) w) as (k & Hk).
  { apply getLastDot_app. apply not_elem_of_nil. }
  rewrite take_app_length, drop_app_length in Hk. by exists k.
Qed.

(** On a path that ends in a dot and is too long to be looked at, the
    resolver raises the error of the probe. *)
Example createTempFileName_trailing_dot_unprobeable :
  createTempFileName (lit "a.") unprobeable_world
  = (Raise OSError, unprobeable_world).
Proof. vm_compute. reflexivity. Qed.

(** ** The argument serializer *)

(** C6.  [build_args] is the concatenation, in the order of the entries,
    of the fragment of each entry, nothing sorted, merged or escaped; the
    fragment is [ --name] for a true boolean, [ --name=value] for a string
    that is not empty, [ --name=] and the printable form for another value,
    and nothing for a false boolean or the empty string.  So [verbose: true]
    gives [ --verbose], [count: 5] gives [ --count=5], and so on. *)
Theorem build_args_fragments :
  (∀ argsDict, build_args argsDict = concat (fragment <$> argsDict)) ∧
  (∀ name c s r z,
     fragment (name, VBool true) = lit " --" ++ name ∧
     fragment (name, VBool false) = lit "" ∧
     fragment (name, VStr (c :: s)) = lit " --" ++ name ++ lit "=" ++ c :: s ∧
     fragment (name, VStr (lit "")) = lit "" ∧
     fragment (name, VOther (PInt z))
     = lit " --" ++ name ++ lit "=" ++ repr_int z ∧
     fragment (name, VOther (PObj r)) = lit " --" ++ name ++ lit "=" ++ r) ∧
  build_args [(lit "verbose", VBool true)] = lit " --verbose" ∧
  build_args [(lit "verbose", VBool false)] = lit "" ∧
  build_args [(lit "name", VStr (lit "x"))] = lit " --name=x" ∧
  build_args [(lit "name", VStr (lit ""))] = lit "" ∧
  build_args [(lit "count", VOther (PInt 5))] = lit " --count=5" ∧
  build_args [(lit "b", VStr (lit "$x y")); (lit "a", VBool true);
              (lit "b", VStr (lit "$x y"))]
  = lit " --b=$x y --a --b=$x y".
Proof.
  split_and!; try (vm_compute; reflexivity).
  - apply build_args_concat.
  - intros name c s r z. split_and!; reflexivity.
Qed.

(** ** The script builders *)

(** C5.  In batch mode, for the environment [env1], the command [python],
    the script [train.py], the arguments [epochs: 10] and the one directive
    [--time=01:00:00], the script file that is written holds, in this
    order, the shebang, the line [#SBATCH --time=01:00:00], the activation
    of [env1], the line [python train.py --epochs=10] and the deactivation
    of [env1]. *)
Theorem build_sbatch_scenario (tf p : list N) (w : World) :
  let runOpt := {| interactive := false; env_name := lit "env1";
                   command := lit "python"; script := lit "train.py";
                   temp_file := tf |} in
  createTempFileName tf w = (Ok p, w) →
  writable w p = true →
  ∃ w' text,
    build_sbatch runOpt [lit "--time=01:00:00"]
      [(lit "epochs", VOther (PInt 10))] w
    = (Ok (set_temp_file p runOpt), w') ∧
    files w' !! p = Some text ∧
    text = lit "#!/bin/bash" ++ nl ++ nl
           ++ lit "#SBATCH --time=01:00:00" ++ nl ++ nl
           ++ lit "source activate env1" ++ nl
           ++ lit "python train.py --epochs=10" ++ nl
           ++ lit "source deactivate env1" ++ nl ∧
    [lit "#!/bin/bash"; lit "#SBATCH --time=01:00:00";
     lit "source activate env1"; lit "python train.py --epochs=10";
     lit "source deactivate env1"] `sublist_of` lines text.
Proof.
  intros runOpt Hp Hw. eexists _, _.
  rewrite (build_sbatch_run runOpt _ _ w p Hp), Hw.
  split_and!; [reflexivity|apply lookup_insert_eq|vm_compute; reflexivity|].
  vm_compute. repeat (apply sublist_skip || apply sublist_cons || constructor).
Qed.

Lemma build_sbatch_scenario_witness :
  ∃ w' text,
    build_sbatch (sample_runOpt false) [lit "--time=01:00:00"]
      [(lit "epochs", VOther (PInt 10))] (sample_world [lit "job.sh"] [] [])
    = (Ok (set_temp_file (lit "job_1.sh") (sample_runOpt false)), w') ∧
    files w' !! lit "job_1.sh" = Some text ∧
    text = lit "#!/bin/bash" ++ nl ++ nl
           ++ lit "#SBATCH --time=01:00:00" ++ nl ++ nl
           ++ lit "source activate env1" ++ nl
           ++ lit "python train.py --epochs=10" ++ nl
           ++ lit "source deactivate env1" ++ nl ∧
    [lit "#!/bin/bash"; lit "#SBATCH --time=01:00:00";
     lit "source activate env1"; lit "python train.py --epochs=10";
     lit "source deactivate env1"] `sublist_of` lines text.
Proof.
  apply (build_sbatch_scenario (lit "job.sh") (lit "job_1.sh")
           (sample_world [lit "job.sh"] [] [])); vm_compute; reflexivity.
Defined.

(** C7.  Both builders write the invocation line as the command, a space,
    the script and the serialized arguments; when [ipython] occurs in the
    command, and only then, the arguments are preceded by one more [ --].
    For the arguments [x: "1"] and such a command the line then holds
    [ -- --x=1]. *)
Theorem ipython_prefix_once (runOpt : RunOptions) (sbatchOpt : list (list N))
    (argsDict : list (list N * pyval)) (w : World) (p : list N) :
  createTempFileName (temp_file runOpt) w = (Ok p, w) →
  writable w p = true →
  let extra :=
    if str_in (lit "ipython") (command runOpt) then lit " --" else lit "" in
  let line :=
    command runOpt ++ lit " " ++ script runOpt
    ++ extra ++ build_args argsDict ++ nl in
  (∃ w',
     build_sbatch runOpt sbatchOpt argsDict w = (Ok (set_temp_file p runOpt), w') ∧
     files w' !! p
     = Some (shebang ++ directive_lines sbatchOpt ++ nl
             ++ (lit "source activate " ++ env_name runOpt ++ nl)
             ++ line
             ++ (lit "source deactivate " ++ env_name runOpt ++ nl))) ∧
  (∃ cmd w',
     build_srun runOpt sbatchOpt argsDict w
     = (Ok (cmd, set_temp_file p runOpt), w') ∧
     files w' !! p
     = Some (shebang
             ++ (lit "source activate " ++ env_name runOpt ++ nl)
             ++ line
             ++ (lit "source deactivate " ++ env_name runOpt ++ nl))) ∧
  (∀ a b, command runOpt = a ++ lit "ipython" ++ b →
     argsDict = [(lit "x", VStr (lit "1"))] →
     line = command runOpt ++ lit " " ++ script runOpt
            ++ lit " -- --x=1" ++ nl) ∧
  (str_in (lit "ipython") (command runOpt) = false →
     line = command runOpt ++ lit " " ++ script runOpt
            ++ build_args argsDict ++ nl).
Proof.
  intros Hp Hw extra line. split_and!.
  - eexists. rewrite (build_sbatch_run runOpt _ _ w p Hp), Hw.
    split; [reflexivity|]. cbn [files set_files]. by rewrite lookup_insert_eq.
  - eexists _, _. rewrite (build_srun_run runOpt _ _ w p Hp), Hw.
    split; [reflexivity|]. cbn [files set_files]. by rewrite lookup_insert_eq.
  - intros a b Hcmd ->. subst line extra.
    assert (str_in (lit "ipython") (command runOpt) = true) as ->.
    { apply str_in_spec. by exists a, b. }
    reflexivity.
  - intros Hno. subst line extra. by rewrite Hno.
Qed.

Lemma ipython_prefix_once_witness :
  let runOpt := {| interactive := false; env_name := lit "env1";
                   command := lit "ipython3"; script := lit "train.py";
                   temp_file := lit "job.sh" |} in
  let w := sample_world [] [] [] in
  ∃ w',
    build_sbatch runOpt [] [(lit "x", VStr (lit "1"))] w
    = (Ok runOpt, w') ∧
    files w' !! lit "job.sh"
    = Some (lit "#!/bin/bash" ++ nl ++ nl ++ nl
            ++ lit "source activate env1" ++ nl
            ++ lit "ipython3 train.py -- --x=1" ++ nl
            ++ lit "source deactivate env1" ++ nl).
Proof.
  intros runOpt w.
  exact (proj1 (ipython_prefix_once runOpt [] [(lit "x", VStr (lit "1"))] w
                  (lit "job.sh") eq_refl eq_refl)).
Defined.

(** C9.  The interactive builder answers the launch command: [srun], then
    each directive as it is, in order, each after one space, then
    [ --pty bash].  The script it writes is the shebang and then the very
    body of the batch script (activation, invocation, deactivation); the
    lines of directives of the batch script, and the empty line that ends
    them, are not in it. *)
Theorem build_srun_command_and_script (runOpt : RunOptions)
    (sbatchOpt : list (list N)) (argsDict : list (list N * pyval))
    (w : World) (p : list N) :
  createTempFileName (temp_file runOpt) w = (Ok p, w) →
  writable w p = true →
  ∃ w' w'' body,
    build_srun runOpt sbatchOpt argsDict w
    = (Ok (lit "srun" ++ concat ((λ opt, lit " " ++ opt) <$> sbatchOpt)
             ++ lit " --pty bash",
           set_temp_file p runOpt), w') ∧
    files w' !! p = Some (lit "#!/bin/bash" ++ nl ++ nl ++ body) ∧
    build_sbatch runOpt sbatchOpt argsDict w
    = (Ok (set_temp_file p runOpt), w'') ∧
    files w'' !! p
    = Some (lit "#!/bin/bash" ++ nl ++ nl
            ++ concat ((λ opt, lit "#SBATCH " ++ opt ++ nl) <$> sbatchOpt)
            ++ nl ++ body) ∧
    body = bash_part runOpt argsDict.
Proof.
  intros Hp Hw.
  exists (set_files (<[p := srun_script runOpt argsDict]> (files w)) w),
    (set_files (<[p := sbatch_script runOpt sbatchOpt argsDict]> (files w)) w),
    (bash_part runOpt argsDict).
  rewrite (build_srun_run runOpt _ _ w p Hp), Hw.
  rewrite (build_sbatch_run runOpt _ _ w p Hp), Hw.
  rewrite srun_command_fold. cbn [files set_files].
  rewrite !lookup_insert_eq.
  split_and!; [by rewrite <- app_assoc| | reflexivity | | reflexivity].
  - unfold srun_script, shebang. by rewrite <- !app_assoc.
  - unfold sbatch_script, shebang, directive_lines. by rewrite <- !app_assoc.
Qed.

Lemma build_srun_command_and_script_witness :
  let w := sample_world [] [] [] in
  ∃ w' w'' body,
    build_srun (sample_runOpt true) [lit "--time=01:00:00"; lit "-n 2"]
      [(lit "epochs", VOther (PInt 10))] w
    = (Ok (lit "srun --time=01:00:00 -n 2 --pty bash", sample_runOpt true),
       w') ∧
    files w' !! lit "job.sh" = Some (lit "#!/bin/bash" ++ nl ++ nl ++ body) ∧
    build_sbatch (sample_runOpt true) [lit "--time=01:00:00"; lit "-n 2"]
      [(lit "epochs", VOther (PInt 10))] w
    = (Ok (sample_runOpt true), w'') ∧
    files w'' !! lit "job.sh"
    = Some (lit "#!/bin/bash" ++ nl ++ nl
            ++ lit "#SBATCH --time=01:00:00" ++ nl
            ++ lit "#SBATCH -n 2" ++ nl
            ++ nl ++ body) ∧
    body = lit "source activate env1" ++ nl
           ++ lit "python train.py --epochs=10" ++ nl
           ++ lit "source deactivate env1" ++ nl.
Proof.
  intros w.
  exact (build_srun_command_and_script (sample_runOpt true)
           [lit "--time=01:00:00"; lit "-n 2"]
           [(lit "epochs", VOther (PInt 10))] w
           (lit "job.sh") eq_refl eq_refl).
Defined.

(** ** The launcher *)

(** C8, as stated, fails: in an interactive run the standard output of the
    child is connected to a pipe, and what the child writes there, here
    [hello], is read and dropped: it reaches no stream of the caller. *)
Lemma launch_exp_interactive_piped :
  let w := sample_world [] (String.list_byte_of_string "hello") [] in
  let argv := [lit "srun"; lit "--pty"; lit "bash"] in
  (launch_exp (sample_runOpt true) [] [] w).1 = Ok (sample_runOpt true) ∧
  trace (launch_exp (sample_runOpt true) [] [] w).2
  = [EvPrint Stdout (lit "Interactive job to launch: job.sh" ++ nl);
     EvSpawn argv PIPE Inherit; EvChildWrite Stderr []; EvExit] ∧
  ¬ (∃ err, EvSpawn argv Inherit err
            ∈ trace (launch_exp (sample_runOpt true) [] [] w).2) ∧
  ¬ (∃ data, EvChildWrite Stdout data
             ∈ trace (launch_exp (sample_runOpt true) [] [] w).2).
Proof.
  intros w argv.
  assert (trace (launch_exp (sample_runOpt true) [] [] w).2
          = [EvPrint Stdout (lit "Interactive job to launch: job.sh" ++ nl);
             EvSpawn argv PIPE Inherit; EvChildWrite Stderr []; EvExit]) as Htr
    by (vm_compute; reflexivity).
  split_and!; [vm_compute; reflexivity|done|..]; rewrite Htr.
  - intros [err Hin].
    repeat (apply elem_of_cons in Hin as [Hin|Hin]; [discriminate|]).
    by apply elem_of_nil in Hin.
  - intros [data Hin].
    repeat (apply elem_of_cons in Hin as [Hin|Hin]; [discriminate|]).
    by apply elem_of_nil in Hin.
Qed.

(** C8, amended: in an interactive run the launcher prints the notice that
    names the script (the notice, then an empty line), then runs the [srun]
    command, split at white space, as a child whose standard output is
    connected to a pipe, and waits for it to exit; what the child wrote to
    the pipe is read and printed nowhere. *)
Theorem launch_exp_interactive (runOpt : RunOptions)
    (sbatchOpt : list (list N)) (argsDict : list (list N * pyval))
    (w : World) (p : list N) (o e : list byte) :
  interactive runOpt = true →
  createTempFileName (temp_file runOpt) w = (Ok p, w) →
  writable w p = true →
  let command_srun :=
    lit "srun" ++ concat ((λ opt, lit " " ++ opt) <$> sbatchOpt)
    ++ lit " --pty bash" in
  child w (split command_srun) = Some (o, e) →
  ∃ w',
    launch_exp runOpt sbatchOpt argsDict w = (Ok (set_temp_file p runOpt), w') ∧
    trace w'
    = trace w
      ++ [EvPrint Stdout (lit "Interactive job to launch: " ++ p ++ nl);
          EvSpawn (split command_srun) PIPE Inherit;
          EvChildWrite Stderr e;
          EvExit].
Proof.
  intros Hi Hp Hw cmd Hc. eexists.
  rewrite (launch_exp_interactive_run runOpt _ _ w p o e Hi Hp Hw Hc).
  split; [reflexivity|]. cbn [trace emit set_files].
  by rewrite <- !app_assoc.
Qed.

Lemma launch_exp_interactive_witness :
  let w := sample_world [lit "job.sh"] (String.list_byte_of_string "hello")
             (String.list_byte_of_string "oops") in
  ∃ w',
    launch_exp (sample_runOpt true) [lit "--time=01:00:00"] [] w
    = (Ok (set_temp_file (lit "job_1.sh") (sample_runOpt true)), w') ∧
    trace w'
    = [EvPrint Stdout (lit "Interactive job to launch: job_1.sh" ++ nl);
       EvSpawn [lit "srun"; lit "--time=01:00:00"; lit "--pty"; lit "bash"]
         PIPE Inherit;
       EvChildWrite Stderr (String.list_byte_of_string "oops");
       EvExit].
Proof.
  intros w.
  exact (launch_exp_interactive (sample_runOpt true) [lit "--time=01:00:00"]
           [] w (lit "job_1.sh") (String.list_byte_of_string "hello")
           (String.list_byte_of_string "oops")
           eq_refl eq_refl eq_refl eq_refl).
Defined.

(** C1, as stated, fails: in a batch run where the child writes nothing to
    its standard output, the launcher still prints to standard output (the
    empty text, so an empty line); and the standard error of the child is
    not connected to a pipe. *)
Lemma launch_exp_batch_prints_empty :
  let w := sample_world [] [] (String.list_byte_of_string "oops") in
  (launch_exp (sample_runOpt false) [] [] w).1 = Ok (sample_runOpt false) ∧
  trace (launch_exp (sample_runOpt false) [] [] w).2
  = [EvSpawn [lit "sbatch"; lit "job.sh"] PIPE Inherit;
     EvChildWrite Stderr (String.list_byte_of_string "oops");
     EvExit;
     EvPrint Stdout (lit "")] ∧
  printed Stdout (trace (launch_exp (sample_runOpt false) [] [] w).2) ≠ [] ∧
  printed Stderr (trace (launch_exp (sample_runOpt false) [] [] w).2) = [].
Proof. vm_compute. split_and!; try reflexivity. discriminate. Qed.

(** C1, amended: in a batch run the launcher runs the [sbatch] command with
    the standard output of the child connected to a pipe and, once the
    child has exited, prints what it read there, decoded as UTF-8 and
    stripped of the white space at both ends, to standard output: once,
    whether this text is empty or not. *)
Theorem launch_exp_batch (runOpt : RunOptions)
    (sbatchOpt : list (list N)) (argsDict : list (list N * pyval))
    (w : World) (p : list N) (o e : list byte) (text : list N) :
  interactive runOpt = false →
  createTempFileName (temp_file runOpt) w = (Ok p, w) →
  writable w p = true →
  child w (split (lit "sbatch " ++ p)) = Some (o, e) →
  decode o = Some text →
  ∃ w' pre post,
    launch_exp runOpt sbatchOpt argsDict w = (Ok (set_temp_file p runOpt), w') ∧
    trace w'
    = trace w ++ pre ++ [EvExit; EvPrint Stdout (strip text)] ++ post ∧
    spawned_stdout pre = [(split (lit "sbatch " ++ p), PIPE)] ∧
    printed Stdout pre = [] ∧
    spawned_stdout post = [] ∧
    printed Stdout post = [].
Proof.
  intros Hi Hp Hw Hc Hd.
  exists (emit (EvPrint Stdout (strip text))
       (emit EvExit (emit (EvChildWrite Stderr e)
          (emit (EvSpawn (split (lit "sbatch " ++ p)) PIPE Inherit)
             (set_files (<[p := sbatch_script runOpt sbatchOpt argsDict]>
                           (files w)) w))))),
    [EvSpawn (split (lit "sbatch " ++ p)) PIPE Inherit; EvChildWrite Stderr e],
    [].
  split_and!; try reflexivity.
  - by apply (launch_exp_batch_run runOpt _ _ w p o e text).
  - cbn [trace emit set_files]. by rewrite <- !app_assoc.
Qed.

Lemma launch_exp_batch_witness :
  let o := String.list_byte_of_string " Submitted batch job 42" ++ [x0a] in
  let w := sample_world [] o [] in
  ∃ w' pre post,
    launch_exp (sample_runOpt false) [] [] w = (Ok (sample_runOpt false), w') ∧
    trace w'
    = pre ++ [EvExit; EvPrint Stdout (lit "Submitted batch job 42")] ++ post ∧
    spawned_stdout pre = [([lit "sbatch"; lit "job.sh"], PIPE)] ∧
    printed Stdout pre = [] ∧
    spawned_stdout post = [] ∧
    printed Stdout post = [].
Proof.
  intros o w.
  exact (launch_exp_batch (sample_runOpt false) [] [] w (lit "job.sh") o []
           (lit " Submitted batch job 42" ++ nl)
           eq_refl eq_refl eq_refl eq_refl eq_refl).
Defined.

(** * Further properties of the code *)

(** ** [getLastDot] *)

Lemma no_dot_lookup (s : list N) :
  dot ∉ s ↔ ∀ i, (i < length s)%nat → s !! i ≠ Some dot.
Proof.
  split.
  - intros H i _ Hi. apply H. by eapply list_elem_of_lookup_2.
  - intros H [i Hi]%list_elem_of_lookup. eapply H; [|done].
    by eapply lookup_lt_Some.
Qed.

Lemma getLastDot_dotted (s : list N) : dot ∈ s → getLastDot s ≠ -1.
Proof.
  intros Hin Hneg.
  by apply (proj2 (no_dot_lookup s) (proj1 (getLastDot_from_none _ _) Hneg)).
Qed.

(** A string with a dot is cut at its last dot. *)
Lemma last_dot_decompose (s : list N) :
  dot ∈ s → ∃ a b, s = a ++ dot :: b ∧ dot ∉ b.
Proof.
  intros Hin. apply getLastDot_dotted in Hin.
  destruct (getLastDot_from_range s (length s)) as [H|H]; [done|].
  destruct (Z_of_nat_complete (getLastDot s)) as [i Hi];
    [unfold getLastDot; lia|].
  destruct (getLastDot_from_some _ _ _ Hi) as (Hlt & Hdot & Hlast).
  exists (take i s), (drop (S i) s). split.
  - by rewrite take_drop_middle.
  - intros [j Hj]%list_elem_of_lookup. rewrite lookup_drop in Hj.
    apply (Hlast (S i + j)%nat); [|done].
    apply lookup_lt_Some in Hj. lia.
Qed.

(** X1.  [getLastDot] answers [-1] exactly on the strings without a dot,
    and otherwise the index of the last dot: the index [i] is answered
    exactly when there is a dot at [i] and none after it. *)
Theorem getLastDot_last_dot (s : list N) :
  (getLastDot s = -1 ↔ dot ∉ s) ∧
  (∀ i : nat, getLastDot s = Z.of_nat i ↔
              s !! i = Some dot ∧ dot ∉ drop (S i) s) ∧
  -1 ≤ getLastDot s < Z.of_nat (length s).
Proof.
  split; [|split].
  - split; [|apply getLastDot_no_dot].
    intros H Hin. by apply getLastDot_dotted in Hin.
  - intros i. split.
    + intros Hi. destruct (getLastDot_from_some _ _ _ Hi) as (Hlt & Hdot & Hlast).
      split; [done|].
      intros [j Hj]%list_elem_of_lookup. rewrite lookup_drop in Hj.
      apply (Hlast (S i + j)%nat); [|done].
      apply lookup_lt_Some in Hj. lia.
    + intros [Hdot Hlast].
      rewrite <- (take_drop_middle s i dot Hdot).
      rewrite getLastDot_app by done. f_equal.
      apply lookup_lt_Some in Hdot. rewrite length_take. lia.
  - destruct (getLastDot_from_range s (length s)) as [H|H];
      unfold getLastDot; lia.
Qed.

(** ** [createTempFileName] *)

(** The three ways the resolver ends. *)
Lemma createTempFileName_cases (p : list N) (w : World) :
  (dot ∈ p ∧
   ((∃ q, createTempFileName p w = (Ok q, w) ∧
          files w !! q = None ∧ probe_error w q = false ∧ dot ∈ q) ∨
    ((∃ q, probe_error w q = true) ∧
     createTempFileName p w = (Raise OSError, w)))) ∨
  ((dot ∉ p) ∧
   createTempFileName p w = (Raise (UnboundLocalError "ret_file_name"), w)).
Proof.
  destruct (decide (dot ∈ p)) as [Hin|Hout].
  - left. split; [done|].
    destruct (last_dot_decompose p Hin) as (a & b & -> & Hb).
    destruct (createTempFileName_dotted (a ++ dot :: b) (length a) w)
      as (k & _ & [(Hrun & Herr & Hfree)|(Hrun & Herr)]);
      [by apply getLastDot_app| |right; eauto].
    left. eexists. split_and!; [done..|].
    rewrite take_app_length, drop_app_length. unfold candidate.
    rewrite !elem_of_app, elem_of_cons. auto.
  - right. split; [done|].
    by apply createTempFileName_dotless, getLastDot_no_dot.
Qed.

(** X2.  On every path without a dot, whatever the files, the resolver
    raises [UnboundLocalError] and leaves the world as it was. *)
Theorem createTempFileName_raises_without_dot (p : list N) (w : World) :
  dot ∉ p →
  createTempFileName p w = (Raise (UnboundLocalError "ret_file_name"), w).
Proof. intros H. by apply createTempFileName_dotless, getLastDot_no_dot. Qed.

Lemma createTempFileName_raises_without_dot_witness :
  createTempFileName (lit "scripts/job_sh") (sample_world [lit "x.sh"] [] [])
  = (Raise (UnboundLocalError "ret_file_name"),
     sample_world [lit "x.sh"] [] []).
Proof.
  apply (createTempFileName_raises_without_dot (lit "scripts/job_sh")).
  refine (bool_decide_unpack _ _). vm_compute. exact I.
Defined.

(** X3.  On a path [stem.ext] ([ext] without a dot) the resolver looks at
    [stem.ext], [stem_1.ext], [stem_2.ext], ... in turn.  It answers the
    first of them that is no file: every candidate before it is a file.
    When it comes to a candidate that cannot be looked at, it raises the
    error of the probe.  The world is left as it was either way. *)
Theorem createTempFileName_first_free (stem ext : list N) (w : World) :
  dot ∉ ext →
  ∃ k,
    (∀ j, (j < k)%nat →
          probe_error w (stem ++ suffix_of j ++ dot :: ext) = false ∧
          is_Some (files w !! (stem ++ suffix_of j ++ dot :: ext))) ∧
    ((createTempFileName (stem ++ dot :: ext) w
      = (Ok (stem ++ suffix_of k ++ dot :: ext), w) ∧
      probe_error w (stem ++ suffix_of k ++ dot :: ext) = false ∧
      files w !! (stem ++ suffix_of k ++ dot :: ext) = None) ∨
     (createTempFileName (stem ++ dot :: ext) w = (Raise OSError, w) ∧
      probe_error w (stem ++ suffix_of k ++ dot :: ext) = true)).
Proof.
  intros Hext.
  destruct (createTempFileName_dotted (stem ++ dot :: ext) (length stem) w)
    as (k & Hk); [by apply getLastDot_app|].
  rewrite take_app_length, drop_app_length in Hk. by exists k.
Qed.

Lemma createTempFileName_first_free_witness :
  let w := sample_world [lit "run/job.sh"; lit "run/job_2.sh"] [] [] in
  ∃ k,
    (∀ j, (j < k)%nat →
          probe_error w (lit "run/job" ++ suffix_of j ++ dot :: lit "sh")
          = false ∧
          is_Some (files w !! (lit "run/job" ++ suffix_of j ++ dot :: lit "sh")))
    ∧
    ((createTempFileName (lit "run/job" ++ dot :: lit "sh") w
      = (Ok (lit "run/job" ++ suffix_of k ++ dot :: lit "sh"), w) ∧
      probe_error w (lit "run/job" ++ suffix_of k ++ dot :: lit "sh") = false ∧
      files w !! (lit "run/job" ++ suffix_of k ++ dot :: lit "sh") = None) ∨
     (createTempFileName (lit "run/job" ++ dot :: lit "sh") w
      = (Raise OSError, w) ∧
      probe_error w (lit "run/job" ++ suffix_of k ++ dot :: lit "sh") = true)).
Proof.
  intros w. apply (createTempFileName_first_free (lit "run/job") (lit "sh")).
  refine (bool_decide_unpack _ _). vm_compute. exact I.
Defined.

(** In the world of the witness the answer is [run/job_1.sh]. *)
Example createTempFileName_first_free_job_1 :
  createTempFileName (lit "run/job.sh")
    (sample_world [lit "run/job.sh"; lit "run/job_2.sh"] [] [])
  = (Ok (lit "run/job_1.sh"),
     sample_world [lit "run/job.sh"; lit "run/job_2.sh"] [] []).
Proof. vm_compute. reflexivity. Qed.

(** X4.  A path with a dot that can be looked at, and at which there is
    no file, is answered as it is. *)
Theorem createTempFileName_keeps_free_path (p : list N) (w : World) :
  dot ∈ p → probe_error w p = false → files w !! p = None →
  createTempFileName p w = (Ok p, w).
Proof.
  intros Hin Herr Hfree. apply createTempFileName_free; [|done|done].
  by apply getLastDot_dotted.
Qed.

Lemma createTempFileName_keeps_free_path_witness :
  createTempFileName (lit "a.b/job.sh") (sample_world [lit "a.b/job"] [] [])
  = (Ok (lit "a.b/job.sh"), sample_world [lit "a.b/job"] [] []).
Proof.
  apply (createTempFileName_keeps_free_path (lit "a.b/job.sh")).
  - refine (bool_decide_unpack _ _). vm_compute. exact I.
  - vm_compute. reflexivity.
  - vm_compute. reflexivity.
Defined.


(** ** [build_args] *)

(** X6.  Serializing two dictionaries one after the other is serializing
    their entries in one: the text for an entry does not depend on the
    entries around it. *)
Theorem build_args_composes (d1 d2 : list (list N * pyval)) :
  build_args (d1 ++ d2) = build_args d1 ++ build_args d2.
Proof. by rewrite !build_args_concat, fmap_app, concat_app. Qed.

Lemma fragment_silent (entry : list N * pyval) :
  fragment entry = [] ↔ silent entry.
Proof.
  destruct entry as [name [[]|[|c s]|[z|r]]]; unfold silent; simpl;
    split; try done; try (intros [?|?]; done); eauto.
Qed.

(** X7.  The serialized text is empty exactly when every entry is a false
    boolean or an empty string; otherwise it begins with [ --]. *)
Theorem build_args_empty_iff (argsDict : list (list N * pyval)) :
  (build_args argsDict = lit "" ↔ Forall silent argsDict) ∧
  (build_args argsDict = lit "" ∨
   ∃ rest, build_args argsDict = lit " --" ++ rest).
Proof.
  rewrite build_args_concat. induction argsDict as [|entry d [IH1 IH2]].
  - split; [|by left]. split; [by constructor|done].
  - cbn [fmap list_fmap concat]. split.
    + rewrite Forall_cons, <- IH1, <- fragment_silent. split.
      * intros [? ?]%app_eq_nil. done.
      * intros [-> ->]. done.
    + destruct entry as [name [[]|[|c s]|[z|r]]]; cbn [fragment];
        try (right; eexists; by rewrite <- app_assoc); exact IH2.
Qed.

(** X8.  Nothing is escaped: a string value that itself holds [ --n=v] is
    serialized to the very text that two entries give. *)
Theorem build_args_not_injective (n1 n2 v1 v2 : list N) :
  v1 ≠ lit "" → v2 ≠ lit "" →
  build_args [(n1, VStr (v1 ++ lit " --" ++ n2 ++ lit "=" ++ v2))]
  = build_args [(n1, VStr v1); (n2, VStr v2)].
Proof.
  intros H1 H2. rewrite !build_args_concat. simpl.
  destruct v1 as [|c1 v1]; [done|]. destruct v2 as [|c2 v2]; [done|].
  simpl. rewrite !app_nil_r. by rewrite <- !app_assoc.
Qed.

Lemma build_args_not_injective_witness :
  build_args [(lit "out", VStr (lit "a" ++ lit " --" ++ lit "force" ++ lit "="
                                ++ lit "yes"))]
  = build_args [(lit "out", VStr (lit "a")); (lit "force", VStr (lit "yes"))].
Proof.
  apply (build_args_not_injective (lit "out") (lit "force")
           (lit "a") (lit "yes")); discriminate.
Defined.

(** ** The script builders *)

Lemma build_sbatch_unresolved runOpt sbatchOpt argsDict (w : World) e :
  createTempFileName (temp_file runOpt) w = (Raise e, w) →
  build_sbatch runOpt sbatchOpt argsDict w = (Raise e, w).
Proof. intros H. unfold build_sbatch. by rewrite (bind_raise _ _ _ _ _ H). Qed.

Lemma build_srun_unresolved runOpt sbatchOpt argsDict (w : World) e :
  createTempFileName (temp_file runOpt) w = (Raise e, w) →
  build_srun runOpt sbatchOpt argsDict w = (Raise e, w).
Proof. intros H. unfold build_srun. by rewrite (bind_raise _ _ _ _ _ H). Qed.

(** A build that returns has resolved a name and opened it. *)
Lemma build_sbatch_inv runOpt sbatchOpt argsDict (w w' : World) r :
  build_sbatch runOpt sbatchOpt argsDict w = (Ok r, w') →
  ∃ p, createTempFileName (temp_file runOpt) w = (Ok p, w) ∧
       writable w p = true ∧
       r = set_temp_file p runOpt ∧
       w' = set_files (<[p := sbatch_script runOpt sbatchOpt argsDict]>
                         (files w)) w.
Proof.
  intros H.
  destruct (createTempFileName_cases (temp_file runOpt) w)
    as [(_ & [(p & Hp & _)|(_ & Hraise)])|(_ & Hraise)].
  - rewrite (build_sbatch_run _ _ _ _ _ Hp) in H.
    destruct (writable w p) eqn:Hw; [|done].
    injection H as <- <-. by exists p.
  - by rewrite (build_sbatch_unresolved _ _ _ _ _ Hraise) in H.
  - by rewrite (build_sbatch_unresolved _ _ _ _ _ Hraise) in H.
Qed.

Lemma build_srun_inv runOpt sbatchOpt argsDict (w w' : World) cmd r :
  build_srun runOpt sbatchOpt argsDict w = (Ok (cmd, r), w') →
  ∃ p, createTempFileName (temp_file runOpt) w = (Ok p, w) ∧
       writable w p = true ∧
       r = set_temp_file p runOpt ∧
       w' = set_files (<[p := srun_script runOpt argsDict]> (files w)) w.
Proof.
  intros H.
  destruct (createTempFileName_cases (temp_file runOpt) w)
    as [(_ & [(p & Hp & _)|(_ & Hraise)])|(_ & Hraise)].
  - rewrite (build_srun_run _ _ _ _ _ Hp) in H.
    destruct (writable w p) eqn:Hw; [|done].
    injection H as _ <- <-. by exists p.
  - by rewrite (build_srun_unresolved _ _ _ _ _ Hraise) in H.
  - by rewrite (build_srun_unresolved _ _ _ _ _ Hraise) in H.
Qed.

(** What the resolver says of a path it answers. *)
Lemma createTempFileName_answer (tf p : list N) (w w' : World) :
  createTempFileName tf w = (Ok p, w') →
  dot ∈ p ∧ probe_error w p = false ∧ files w !! p = None.
Proof.
  intros Hp.
  destruct (createTempFileName_cases tf w)
    as [(_ & [(q & Hq & Hfree & Herr & Hdot)|(_ & ?)])|(_ & ?)];
    [|congruence..].
  rewrite Hq in Hp. by injection Hp as <- _.
Qed.

(** X9.  The batch builder prints nothing and starts nothing, however it
    ends.  When it returns, the options it hands back are the ones it was
    given but for [temp_file], and the new [temp_file] is the answer of the
    resolver: a path with a dot that could be looked at, that was no file,
    and that could be opened for writing. *)
Theorem build_sbatch_quiet runOpt sbatchOpt argsDict (w : World) :
  let out := build_sbatch runOpt sbatchOpt argsDict w in
  trace out.2 = trace w ∧
  (∀ r, out.1 = Ok r →
        r = set_temp_file (temp_file r) runOpt ∧
        createTempFileName (temp_file runOpt) w = (Ok (temp_file r), w) ∧
        dot ∈ temp_file r ∧
        probe_error w (temp_file r) = false ∧
        files w !! temp_file r = None ∧
        writable w (temp_file r) = true).
Proof.
  intros out. subst out.
  destruct (build_sbatch runOpt sbatchOpt argsDict w) as [res w'] eqn:Hrun.
  cbn [fst snd]. destruct res as [r|e|].
  - destruct (build_sbatch_inv _ _ _ _ _ _ Hrun) as (p & Hp & Hw & -> & ->).
    split; [done|]. intros ? [= <-]. cbn [temp_file set_temp_file].
    destruct (createTempFileName_answer _ _ _ _ Hp) as (? & ? & ?). done.
  - split; [|done].
    destruct (createTempFileName_cases (temp_file runOpt) w)
      as [(_ & [(p & Hp & _)|(_ & Hraise)])|(_ & Hraise)].
    + rewrite (build_sbatch_run _ _ _ _ _ Hp) in Hrun.
      destruct (writable w p); by injection Hrun as _ <-.
    + rewrite (build_sbatch_unresolved _ _ _ _ _ Hraise) in Hrun.
      by injection Hrun as _ <-.
    + rewrite (build_sbatch_unresolved _ _ _ _ _ Hraise) in Hrun.
      by injection Hrun as _ <-.
  - destruct (createTempFileName_cases (temp_file runOpt) w)
      as [(_ & [(p & Hp & _)|(_ & Hraise)])|(_ & Hraise)].
    + rewrite (build_sbatch_run _ _ _ _ _ Hp) in Hrun.
      by destruct (writable w p).
    + by rewrite (build_sbatch_unresolved _ _ _ _ _ Hraise) in Hrun.
    + by rewrite (build_sbatch_unresolved _ _ _ _ _ Hraise) in Hrun.
Qed.

(** X10.  The same for the interactive builder, whose launch command
    does not depend on the files at all. *)
Theorem build_srun_quiet runOpt sbatchOpt argsDict (w : World) :
  let out := build_srun runOpt sbatchOpt argsDict w in
  trace out.2 = trace w ∧
  (∀ cmd r, out.1 = Ok (cmd, r) →
        cmd = lit "srun" ++ concat ((λ opt, lit " " ++ opt) <$> sbatchOpt)
              ++ lit " --pty bash" ∧
        r = set_temp_file (temp_file r) runOpt ∧
        createTempFileName (temp_file runOpt) w = (Ok (temp_file r), w) ∧
        dot ∈ temp_file r ∧
        probe_error w (temp_file r) = false ∧
        files w !! temp_file r = None ∧
        writable w (temp_file r) = true).
Proof.
  intros out. subst out.
  destruct (build_srun runOpt sbatchOpt argsDict w) as [res w'] eqn:Hrun.
  cbn [fst snd]. destruct res as [[cmd r]|e|].
  - destruct (build_srun_inv _ _ _ _ _ _ _ Hrun) as (p & Hp & Hw & -> & ->).
    split; [done|]. intros ? ? [= <- <-]. cbn [temp_file set_temp_file].
    destruct (createTempFileName_answer _ _ _ _ Hp) as (? & ? & ?).
    split_and!; try done.
    rewrite (build_srun_run _ _ _ _ _ Hp), Hw in Hrun.
    injection Hrun as <-. by rewrite srun_command_fold, <- app_assoc.
  - split; [|done].
    destruct (createTempFileName_cases (temp_file runOpt) w)
      as [(_ & [(p & Hp & _)|(_ & Hraise)])|(_ & Hraise)].
    + rewrite (build_srun_run _ _ _ _ _ Hp) in Hrun.
      destruct (writable w p); by injection Hrun as _ <-.
    + rewrite (build_srun_unresolved _ _ _ _ _ Hraise) in Hrun.
      by injection Hrun as _ <-.
    + rewrite (build_srun_unresolved _ _ _ _ _ Hraise) in Hrun.
      by injection Hrun as _ <-.
  - destruct (createTempFileName_cases (temp_file runOpt) w)
      as [(_ & [(p & Hp & _)|(_ & Hraise)])|(_ & Hraise)].
    + rewrite (build_srun_run _ _ _ _ _ Hp) in Hrun.
      by destruct (writable w p).
    + by rewrite (build_srun_unresolved _ _ _ _ _ Hraise) in Hrun.
    + by rewrite (build_srun_unresolved _ _ _ _ _ Hraise) in Hrun.
Qed.

(** ** The launcher: how a run can end *)

Lemma launch_exp_unresolved runOpt sbatchOpt argsDict (w : World) e :
  createTempFileName (temp_file runOpt) w = (Raise e, w) →
  launch_exp runOpt sbatchOpt argsDict w = (Raise e, w).
Proof.
  intros H. unfold launch_exp. destruct (interactive runOpt).
  - by rewrite (bind_raise _ _ _ _ _ (build_srun_unresolved _ _ _ _ _ H)).
  - by rewrite (bind_raise _ _ _ _ _ (build_sbatch_unresolved _ _ _ _ _ H)).
Qed.

Lemma launch_exp_unwritable runOpt sbatchOpt argsDict (w : World) p :
  createTempFileName (temp_file runOpt) w = (Ok p, w) →
  writable w p = false →
  launch_exp runOpt sbatchOpt argsDict w = (Raise OSError, w).
Proof.
  intros Hp Hw. unfold launch_exp. destruct (interactive runOpt).
  - rewrite bind_unfold, (build_srun_run _ _ _ _ _ Hp). by rewrite Hw.
  - rewrite bind_unfold, (build_sbatch_run _ _ _ _ _ Hp). by rewrite Hw.
Qed.

Lemma launch_exp_interactive_unstartable runOpt sbatchOpt argsDict
    (w : World) p :
  interactive runOpt = true →
  createTempFileName (temp_file runOpt) w = (Ok p, w) →
  writable w p = true →
  child w (split (lit "srun" ++ concat ((λ opt, lit " " ++ opt) <$> sbatchOpt)
                  ++ lit " --pty bash")) = None →
  launch_exp runOpt sbatchOpt argsDict w
  = (Raise OSError,
     emit (EvPrint Stdout (lit "Interactive job to launch: " ++ p ++ nl))
       (set_files (<[p := srun_script runOpt argsDict]> (files w)) w)).
Proof.
  intros Hi Hp Hw Hc. unfold launch_exp. rewrite Hi.
  rewrite bind_unfold, (build_srun_run runOpt _ _ w p Hp), Hw.
  rewrite srun_command_fold, <- app_assoc.
  rewrite bind_unfold. unfold print at 1. cbn [temp_file set_temp_file].
  by rewrite popen_fails.
Qed.

Lemma launch_exp_batch_unstartable runOpt sbatchOpt argsDict (w : World) p :
  interactive runOpt = false →
  createTempFileName (temp_file runOpt) w = (Ok p, w) →
  writable w p = true →
  child w (split (lit "sbatch " ++ p)) = None →
  launch_exp runOpt sbatchOpt argsDict w
  = (Raise OSError,
     set_files (<[p := sbatch_script runOpt sbatchOpt argsDict]> (files w)) w).
Proof.
  intros Hi Hp Hw Hc. unfold launch_exp. rewrite Hi.
  rewrite bind_unfold, (build_sbatch_run runOpt _ _ w p Hp), Hw.
  cbn [temp_file set_temp_file]. by rewrite popen_fails.
Qed.

Lemma launch_exp_batch_undecodable runOpt sbatchOpt argsDict (w : World) p
    (o e : list byte) :
  interactive runOpt = false →
  createTempFileName (temp_file runOpt) w = (Ok p, w) →
  writable w p = true →
  child w (split (lit "sbatch " ++ p)) = Some (o, e) →
  decode o = None →
  launch_exp runOpt sbatchOpt argsDict w
  = (Raise UnicodeDecodeError,
     emit EvExit (emit (EvChildWrite Stderr e)
       (emit (EvSpawn (split (lit "sbatch " ++ p)) PIPE Inherit)
          (set_files (<[p := sbatch_script runOpt sbatchOpt argsDict]>
                        (files w)) w)))).
Proof.
  intros Hi Hp Hw Hc Hd. unfold launch_exp. rewrite Hi.
  rewrite bind_unfold, (build_sbatch_run runOpt _ _ w p Hp), Hw.
  cbn [temp_file set_temp_file].
  rewrite (popen_communicate _ _ _ o e) by done.
  unfold relay, str_utf8. rewrite Hd. by rewrite !bind_unfold.
Qed.

(** X12.  When the name of the script has no dot, the launcher raises
    [UnboundLocalError] in either mode, before anything happens: no file is
    written, nothing is printed, no command is started. *)
Theorem launch_exp_without_dot runOpt sbatchOpt argsDict (w : World) :
  dot ∉ temp_file runOpt →
  launch_exp runOpt sbatchOpt argsDict w
  = (Raise (UnboundLocalError "ret_file_name"), w).
Proof.
  intros H. apply launch_exp_unresolved.
  by apply createTempFileName_dotless, getLastDot_no_dot.
Qed.

Lemma launch_exp_without_dot_witness :
  launch_exp (set_temp_file (lit "job") (sample_runOpt true))
    [lit "-n 2"] [(lit "x", VStr (lit "1"))]
    (sample_world [] (String.list_byte_of_string "hello") [])
  = (Raise (UnboundLocalError "ret_file_name"),
     sample_world [] (String.list_byte_of_string "hello") []).
Proof.
  apply (launch_exp_without_dot (set_temp_file (lit "job") (sample_runOpt true))).
  refine (bool_decide_unpack _ _). vm_compute. exact I.
Defined.

(** X13.  When the script cannot be opened for writing, the launcher
    raises the error of [open] in either mode, and again nothing has
    happened. *)
Theorem launch_exp_cannot_open runOpt sbatchOpt argsDict (w : World) p :
  createTempFileName (temp_file runOpt) w = (Ok p, w) →
  writable w p = false →
  launch_exp runOpt sbatchOpt argsDict w = (Raise OSError, w).
Proof. apply launch_exp_unwritable. Qed.

Lemma launch_exp_cannot_open_witness :
  launch_exp (sample_runOpt false) [] [] readonly_world
  = (Raise OSError, readonly_world).
Proof.
  apply (launch_exp_cannot_open (sample_runOpt false) [] [] readonly_world
           (lit "job.sh")); vm_compute; reflexivity.
Defined.

(** X14.  When, in batch mode, the [sbatch] command cannot be started,
    the launcher raises the error of [Popen]; the script has been written
    and stays behind, and nothing has been printed. *)
Theorem launch_exp_batch_cannot_start runOpt sbatchOpt argsDict (w : World) p :
  interactive runOpt = false →
  createTempFileName (temp_file runOpt) w = (Ok p, w) →
  writable w p = true →
  child w (split (lit "sbatch " ++ p)) = None →
  ∃ w',
    launch_exp runOpt sbatchOpt argsDict w = (Raise OSError, w') ∧
    files w' !! p = Some (sbatch_script runOpt sbatchOpt argsDict) ∧
    trace w' = trace w.
Proof.
  intros Hi Hp Hw Hc. eexists.
  rewrite (launch_exp_batch_unstartable _ _ _ _ _ Hi Hp Hw Hc).
  split_and!; [reflexivity|apply lookup_insert_eq|reflexivity].
Qed.

Lemma launch_exp_batch_cannot_start_witness :
  ∃ w',
    launch_exp (sample_runOpt false) [] [] (offline_world [])
    = (Raise OSError, w') ∧
    files w' !! lit "job.sh" = Some (sbatch_script (sample_runOpt false) [] []) ∧
    trace w' = trace (offline_world []).
Proof.
  apply (launch_exp_batch_cannot_start (sample_runOpt false) [] []
           (offline_world []) (lit "job.sh")); vm_compute; reflexivity.
Defined.

(** X15.  When, in interactive mode, the [srun] command cannot be
    started, the launcher raises the error of [Popen] after it has written
    the script and printed the notice. *)
Theorem launch_exp_interactive_cannot_start runOpt sbatchOpt argsDict
    (w : World) p :
  interactive runOpt = true →
  createTempFileName (temp_file runOpt) w = (Ok p, w) →
  writable w p = true →
  child w (split (lit "srun" ++ concat ((λ opt, lit " " ++ opt) <$> sbatchOpt)
                  ++ lit " --pty bash")) = None →
  ∃ w',
    launch_exp runOpt sbatchOpt argsDict w = (Raise OSError, w') ∧
    files w' !! p = Some (srun_script runOpt argsDict) ∧
    trace w'
    = trace w ++ [EvPrint Stdout (lit "Interactive job to launch: " ++ p ++ nl)].
Proof.
  intros Hi Hp Hw Hc. eexists.
  rewrite (launch_exp_interactive_unstartable _ _ _ _ _ Hi Hp Hw Hc).
  split_and!; [reflexivity|apply lookup_insert_eq|reflexivity].
Qed.

Lemma launch_exp_interactive_cannot_start_witness :
  ∃ w',
    launch_exp (sample_runOpt true) [lit "-n 2"] [] (offline_world [])
    = (Raise OSError, w') ∧
    files w' !! lit "job.sh" = Some (srun_script (sample_runOpt true) []) ∧
    trace w'
    = trace (offline_world [])
      ++ [EvPrint Stdout (lit "Interactive job to launch: " ++ lit "job.sh"
                          ++ nl)].
Proof.
  apply (launch_exp_interactive_cannot_start (sample_runOpt true) [lit "-n 2"]
           [] (offline_world []) (lit "job.sh")); vm_compute; reflexivity.
Defined.

(** X16.  When, in batch mode, what the child wrote to its standard
    output is no UTF-8, the launcher raises [UnicodeDecodeError] once the
    child has exited: nothing is printed, and the script stays behind. *)
Theorem launch_exp_batch_not_utf8 runOpt sbatchOpt argsDict (w : World) p
    (o e : list byte) :
  interactive runOpt = false →
  createTempFileName (temp_file runOpt) w = (Ok p, w) →
  writable w p = true →
  child w (split (lit "sbatch " ++ p)) = Some (o, e) →
  decode o = None →
  ∃ w',
    launch_exp runOpt sbatchOpt argsDict w = (Raise UnicodeDecodeError, w') ∧
    trace w'
    = trace w ++ [EvSpawn (split (lit "sbatch " ++ p)) PIPE Inherit;
                  EvChildWrite Stderr e; EvExit] ∧
    files w' !! p = Some (sbatch_script runOpt sbatchOpt argsDict).
Proof.
  intros Hi Hp Hw Hc Hd. eexists.
  rewrite (launch_exp_batch_undecodable _ _ _ _ _ o e Hi Hp Hw Hc Hd).
  split_and!; [reflexivity| |apply lookup_insert_eq].
  cbn [trace emit set_files]. by rewrite <- !app_assoc.
Qed.

Lemma launch_exp_batch_not_utf8_witness :
  ∃ w',
    launch_exp (sample_runOpt false) [] [] (sample_world [] [xff] [])
    = (Raise UnicodeDecodeError, w') ∧
    trace w'
    = trace (sample_world [] [xff] [])
      ++ [EvSpawn (split (lit "sbatch " ++ lit "job.sh")) PIPE Inherit;
          EvChildWrite Stderr []; EvExit] ∧
    files w' !! lit "job.sh" = Some (sbatch_script (sample_runOpt false) [] []).
Proof.
  apply (launch_exp_batch_not_utf8 (sample_runOpt false) [] []
           (sample_world [] [xff] []) (lit "job.sh") [xff] []);
    vm_compute; reflexivity.
Defined.

(** X17.  Whatever the inputs and however the run ends, the launcher adds
    events to the trace and removes none; it prints nothing to standard
    error itself; and it starts at most one command, with the standard
    output piped and the standard error left to the caller's.  When it
    returns, it has started exactly one command. *)
Theorem launch_exp_frame runOpt sbatchOpt argsDict (w : World) :
  let out := launch_exp runOpt sbatchOpt argsDict w in
  ∃ new,
    trace out.2 = trace w ++ new ∧
    printed Stderr new = [] ∧
    Forall piped_stdout_only new ∧
    (length (spawned_stdout new) ≤ 1)%nat ∧
    (∀ r, out.1 = Ok r → length (spawned_stdout new) = 1%nat).
Proof.
  intros out. subst out.
  assert (∀ e, createTempFileName (temp_file runOpt) w = (Raise e, w) →
    ∃ new,
      trace (launch_exp runOpt sbatchOpt argsDict w).2 = trace w ++ new ∧
      printed Stderr new = [] ∧ Forall piped_stdout_only new ∧
      (length (spawned_stdout new) ≤ 1)%nat ∧
      (∀ r, (launch_exp runOpt sbatchOpt argsDict w).1 = Ok r →
            length (spawned_stdout new) = 1%nat)) as Hunresolved.
  { intros e Hraise. rewrite (launch_exp_unresolved _ _ _ _ _ Hraise).
    exists []. rewrite app_nil_r. split_and!; try done. simpl; lia. }
  destruct (createTempFileName_cases (temp_file runOpt) w)
    as [(_ & [(p & Hp & _)|(_ & Hraise)])|(_ & Hraise)]; [|by eauto..].
  destruct (writable w p) eqn:Hw.
  2:{ rewrite (launch_exp_unwritable _ _ _ _ _ Hp Hw). exists [].
      rewrite app_nil_r. split_and!; try done. simpl; lia. }
  destruct (interactive runOpt) eqn:Hi.
  - destruct (child w (split (lit "srun"
                ++ concat ((λ opt, lit " " ++ opt) <$> sbatchOpt)
                ++ lit " --pty bash"))) as [[o e]|] eqn:Hc.
    + rewrite (launch_exp_interactive_run _ _ _ _ _ o e Hi Hp Hw Hc).
      eexists [_; _; _; _]. cbn [trace emit set_files fst snd].
      split_and!; [by rewrite <- !app_assoc|done| |simpl; lia|done].
      by repeat constructor.
    + rewrite (launch_exp_interactive_unstartable _ _ _ _ _ Hi Hp Hw Hc).
      eexists [_]. cbn [trace emit set_files fst snd].
      split_and!; [done|done| |simpl; lia|done].
      by repeat constructor.
  - destruct (child w (split (lit "sbatch " ++ p))) as [[o e]|] eqn:Hc.
    + destruct (decode o) as [text|] eqn:Hd.
      * rewrite (launch_exp_batch_run _ _ _ _ _ o e text Hi Hp Hw Hc Hd).
        eexists [_; _; _; _]. cbn [trace emit set_files fst snd].
        split_and!; [by rewrite <- !app_assoc|done| |simpl; lia|done].
        by repeat constructor.
      * rewrite (launch_exp_batch_undecodable _ _ _ _ _ o e Hi Hp Hw Hc Hd).
        eexists [_; _; _]. cbn [trace emit set_files fst snd].
        split_and!; [by rewrite <- !app_assoc|done| |simpl; lia|done].
        by repeat constructor.
    + rewrite (launch_exp_batch_unstartable _ _ _ _ _ Hi Hp Hw Hc).
      exists []. cbn [trace emit set_files fst snd]. rewrite app_nil_r.
      split_and!; [done|done|done|simpl; lia|done].
Qed.

(** ** The launcher: the arguments of the command *)

Lemma split_go_app_space (cur a b : list N) (c : N) :
  isspace c = true →
  split_go cur (a ++ c :: b) = split_go cur a ++ split b.
Proof.
  intros Hc. revert cur. induction a as [|x a IH]; intros cur; simpl.
  - rewrite Hc. by case_decide.
  - destruct (isspace x); [|apply IH].
    case_decide; [apply IH|]. by rewrite IH.
Qed.

Lemma split_go_word (cur s : list N) :
  Forall (λ c, isspace c = false) s → cur ++ s ≠ [] →
  split_go cur s = [reverse cur ++ s].
Proof.
  intros Hs. revert cur. induction Hs as [|c s Hc Hs IH]; intros cur Hne; simpl.
  - rewrite app_nil_r in *. by case_decide.
  - rewrite Hc, IH by done. by rewrite reverse_cons, <- app_assoc.
Qed.

(** The command of the interactive run, split at white space. *)
Lemma split_command_srun (sbatchOpt : list (list N)) :
  split (lit "srun" ++ concat ((λ opt, lit " " ++ opt) <$> sbatchOpt)
         ++ lit " --pty bash")
  = lit "srun" :: concat (split <$> sbatchOpt) ++ [lit "--pty"; lit "bash"].
Proof.
  assert (∀ opts,
    ∃ rest, concat ((λ opt, lit " " ++ opt) <$> opts) ++ lit " --pty bash"
            = 32%N :: rest ∧
            split rest = concat (split <$> opts) ++ [lit "--pty"; lit "bash"])
    as Htail.
  { induction opts as [|opt opts (rest & Hrest & IH)].
    - eexists. split; [reflexivity|]. vm_compute. reflexivity.
    - exists (opt ++ 32%N :: rest). split.
      + cbn [fmap list_fmap concat]. rewrite <- !app_assoc, Hrest. done.
      + unfold split at 1. rewrite split_go_app_space by done.
        cbn [fmap list_fmap concat]. by rewrite <- app_assoc, IH. }
  destruct (Htail sbatchOpt) as (rest & -> & Hsplit).
  unfold split at 1. by rewrite split_go_app_space, Hsplit.
Qed.

(** A path that the resolver answers has a dot. *)
Lemma createTempFileName_answer_dotted (tf p : list N) (w w' : World) :
  createTempFileName tf w = (Ok p, w') → dot ∈ p.
Proof. intros Hp. by destruct (createTempFileName_answer _ _ _ _ Hp). Qed.

(** X18.  An interactive run that returns has started [srun] with, as
    arguments, the white-space separated pieces of the directives, in
    order, and then [--pty] and [bash]: a directive with a space in it
    makes several arguments, an empty one none. *)
Theorem launch_exp_interactive_argv runOpt sbatchOpt argsDict (w : World) p
    (o e : list byte) :
  interactive runOpt = true →
  createTempFileName (temp_file runOpt) w = (Ok p, w) →
  writable w p = true →
  child w (lit "srun" :: concat (split <$> sbatchOpt)
           ++ [lit "--pty"; lit "bash"]) = Some (o, e) →
  ∃ w',
    launch_exp runOpt sbatchOpt argsDict w = (Ok (set_temp_file p runOpt), w') ∧
    spawned_stdout (trace w')
    = spawned_stdout (trace w)
      ++ [(lit "srun" :: concat (split <$> sbatchOpt)
           ++ [lit "--pty"; lit "bash"], PIPE)].
Proof.
  intros Hi Hp Hw Hc. rewrite <- split_command_srun in Hc. eexists.
  rewrite (launch_exp_interactive_run _ _ _ _ _ o e Hi Hp Hw Hc).
  split; [reflexivity|]. cbn [trace emit set_files].
  rewrite split_command_srun. unfold spawned_stdout.
  rewrite <- !app_assoc, omap_app. done.
Qed.

Lemma launch_exp_interactive_argv_witness :
  ∃ w',
    launch_exp (sample_runOpt true) [lit "-n 2"; lit ""; lit "--mem=4G"] []
      (sample_world [] [] [])
    = (Ok (set_temp_file (lit "job.sh") (sample_runOpt true)), w') ∧
    spawned_stdout (trace w')
    = spawned_stdout (trace (sample_world [] [] []))
      ++ [(lit "srun"
           :: concat (split <$> [lit "-n 2"; lit ""; lit "--mem=4G"])
           ++ [lit "--pty"; lit "bash"], PIPE)].
Proof.
  apply (launch_exp_interactive_argv (sample_runOpt true)
           [lit "-n 2"; lit ""; lit "--mem=4G"] [] (sample_world [] [] [])
           (lit "job.sh") [] []); vm_compute; reflexivity.
Defined.

(** X19.  A batch run that returns has started [sbatch] with, as
    arguments, the white-space separated pieces of the script path: the
    path alone when it has no white space.  After the child has exited,
    whose standard error went to the caller's, the stripped output is
    printed. *)
Theorem launch_exp_batch_argv runOpt sbatchOpt argsDict (w : World) p
    (o e : list byte) (text : list N) :
  interactive runOpt = false →
  createTempFileName (temp_file runOpt) w = (Ok p, w) →
  writable w p = true →
  child w (lit "sbatch" :: split p) = Some (o, e) →
  decode o = Some text →
  ∃ w',
    launch_exp runOpt sbatchOpt argsDict w = (Ok (set_temp_file p runOpt), w') ∧
    trace w'
    = trace w ++ [EvSpawn (lit "sbatch" :: split p) PIPE Inherit;
                  EvChildWrite Stderr e; EvExit;
                  EvPrint Stdout (strip text)] ∧
    (Forall (λ c, isspace c = false) p → split p = [p]).
Proof.
  intros Hi Hp Hw Hc Hd.
  assert (split (lit "sbatch " ++ p) = lit "sbatch" :: split p) as Hargv.
  { change (lit "sbatch " ++ p) with (lit "sbatch" ++ 32%N :: p).
    unfold split at 1. by rewrite split_go_app_space. }
  rewrite <- Hargv in Hc. eexists.
  rewrite (launch_exp_batch_run _ _ _ _ _ o e text Hi Hp Hw Hc Hd).
  split_and!; [reflexivity| |].
  - cbn [trace emit set_files]. by rewrite Hargv, <- !app_assoc.
  - intros Hword. apply (split_go_word [] p Hword). simpl.
    intros ->. by apply createTempFileName_answer_dotted, elem_of_nil in Hp.
Qed.

Lemma launch_exp_batch_argv_witness :
  let runOpt := set_temp_file (lit "my job.sh") (sample_runOpt false) in
  let w := sample_world [] (String.list_byte_of_string "ok") [] in
  ∃ w',
    launch_exp runOpt [] [] w = (Ok runOpt, w') ∧
    trace w'
    = trace w ++ [EvSpawn (lit "sbatch" :: split (lit "my job.sh")) PIPE Inherit;
                  EvChildWrite Stderr []; EvExit;
                  EvPrint Stdout (strip (lit "ok"))] ∧
    (Forall (λ c, isspace c = false) (lit "my job.sh") →
     split (lit "my job.sh") = [lit "my job.sh"]).
Proof.
  intros runOpt w.
  exact (launch_exp_batch_argv runOpt [] [] w (lit "my job.sh")
           (String.list_byte_of_string "ok") [] (lit "ok")
           eq_refl eq_refl eq_refl eq_refl eq_refl).
Defined.

(** The path [my job.sh] is handed to [sbatch] in two pieces. *)
Example split_path_with_space :
  lit "sbatch" :: split (lit "my job.sh")
  = [lit "sbatch"; lit "my"; lit "job.sh"].
Proof. vm_compute. reflexivity. Qed.

(** ** The launcher: an error of the probe *)

(** A path with a dot that cannot be looked at stops the resolver at its
    first test. *)
Lemma createTempFileName_unprobeable (p : list N) (w : World) :
  dot ∈ p → probe_error w p = true →
  createTempFileName p w = (Raise OSError, w).
Proof.
  intros Hin Herr.
  destruct (last_dot_decompose p Hin) as (a & b & -> & Hb).
  destruct (createTempFileName_dotted (a ++ dot :: b) (length a) w)
    as (k & Hbusy & Hend); [by apply getLastDot_app|].
  rewrite take_app_length, drop_app_length in Hbusy, Hend.
  destruct k as [|k].
  - destruct Hend as [(_ & Hfalse & _)|(Hrun & _)]; [|done].
    unfold candidate in Hfalse. simpl in Hfalse. congruence.
  - destruct (Hbusy 0%nat) as [Hfalse _]; [lia|].
    unfold candidate in Hfalse. simpl in Hfalse. congruence.
Qed.

(** X20.  When the name of the script has a dot but cannot be looked at
    (a name that is too long, a directory that may not be searched), the
    launcher raises the error of the probe in either mode, before
    anything happens: no file is written, nothing is printed, no command
    is started. *)
Theorem launch_exp_probe_error runOpt sbatchOpt argsDict (w : World) :
  dot ∈ temp_file runOpt →
  probe_error w (temp_file runOpt) = true →
  launch_exp runOpt sbatchOpt argsDict w = (Raise OSError, w).
Proof.
  intros Hin Herr. apply launch_exp_unresolved.
  by apply createTempFileName_unprobeable.
Qed.

Lemma launch_exp_probe_error_witness :
  launch_exp (sample_runOpt true) [lit "-n 2"] [] unprobeable_world
  = (Raise OSError, unprobeable_world).
Proof.
  apply (launch_exp_probe_error (sample_runOpt true)).
  - refine (bool_decide_unpack _ _). vm_compute. exact I.
  - vm_compute. reflexivity.
Defined.
